(** * Catalog Management System: the view-model of [Web_App_Version/script.js]

    A shallow embedding of the script's in-memory catalog, its validation,
    its add / edit / update / delete operations and its form controller,
    followed by the properties of the specification that concern them.

    Conventions of the embedding.
    - A JavaScript string is the list of its UTF-16 code units.
    - Item ids are integers (the specification's data model) held in
      JavaScript numbers, that is binary64 floating point: [Math.max] is
      exact on them and [+ 1] rounds its result to the nearest number,
      ties to even, which [round_double] computes on integers.
    - The script's globals and the parts of the page it reads or writes are
      the fields of one [state] record that every function threads through.
    - [alert] appends its message to a log kept in the state; the answer of
      [confirm] is an argument of [deleteItem]; [console.log] and the smooth
      scrolling have no effect on the state and are left out.
    - The markup written to [innerHTML] is represented by the data it is
      generated from. *)

From Stdlib Require Import ZArith NArith String Ascii.
From stdpp Require Import prelude.

Local Open Scope Z_scope.

(** ** Strings *)

Definition jsstring : Type := list N.

(** A string literal of the script (all of them are ASCII). *)
Definition lit (s : string) : jsstring :=
  N_of_ascii <$> list_ascii_of_string s.

(** The code units [String.prototype.trim] strips: ECMAScript's WhiteSpace
    and LineTerminator productions. *)
Definition is_white_space (c : N) : bool :=
  ((c =? 0x09) || (c =? 0x0A) || (c =? 0x0B) || (c =? 0x0C) || (c =? 0x0D)
   || (c =? 0x20) || (c =? 0xA0) || (c =? 0x1680)
   || ((0x2000 <=? c) && (c <=? 0x200A))
   || (c =? 0x2028) || (c =? 0x2029) || (c =? 0x202F) || (c =? 0x205F)
   || (c =? 0x3000) || (c =? 0xFEFF))%N.

Fixpoint trim_start (s : jsstring) : jsstring :=
  match s with
  | [] => []
  | c :: r => if is_white_space c then trim_start r else s
  end.

Definition trim_end (s : jsstring) : jsstring :=
  reverse (trim_start (reverse s)).

(** [s.trim()] *)
Definition trim (s : jsstring) : jsstring := trim_end (trim_start s).

(** [!s] for a string [s]: only the empty string is falsy. *)
Definition str_falsy (s : jsstring) : bool := bool_decide (s = []).

(** ** Items and the page state *)

Record item : Type := Item {
  item_id : Z;
  item_name : jsstring;
  item_description : jsstring
}.

Global Instance item_eq_dec : EqDecision item.
Proof. solve_decision. Defined.

(** What [itemsList.innerHTML] holds. *)
Inductive list_view : Type :=
  | MarkupOfPage                    (* whatever the page shipped with *)
  | LoadErrorMessage                (* 'Error loading catalog data. ...' *)
  | NoItemsMessage                  (* 'No items in catalog. ...' *)
  | Cards (cards : list item).      (* one item-card per item, in order *)

Record state : Type := State {
  catalogData : list item;
  editingItemId : option Z;            (* [null] is [None] *)
  itemsList : list_view;               (* itemsList.innerHTML *)
  itemIdInput : option Z;              (* itemIdInput.value, '' is [None] *)
  itemNameInput : jsstring;            (* itemNameInput.value *)
  itemDescriptionInput : jsstring;     (* itemDescriptionInput.value *)
  formTitle : jsstring;                (* formTitle.textContent *)
  submitBtn : jsstring;                (* submitBtn.textContent *)
  cancelBtn : jsstring;                (* cancelBtn.style.display *)
  detailsSection : jsstring;           (* detailsSection.style.display *)
  itemDetails : option item;           (* itemDetails.innerHTML *)
  alerts : list jsstring               (* messages shown so far *)
}.

Definition set_catalogData (c : list item) (s : state) : state :=
  State c (editingItemId s) (itemsList s) (itemIdInput s) (itemNameInput s)
    (itemDescriptionInput s) (formTitle s) (submitBtn s) (cancelBtn s)
    (detailsSection s) (itemDetails s) (alerts s).

Definition set_editingItemId (e : option Z) (s : state) : state :=
  State (catalogData s) e (itemsList s) (itemIdInput s) (itemNameInput s)
    (itemDescriptionInput s) (formTitle s) (submitBtn s) (cancelBtn s)
    (detailsSection s) (itemDetails s) (alerts s).

Definition set_itemsList (v : list_view) (s : state) : state :=
  State (catalogData s) (editingItemId s) v (itemIdInput s) (itemNameInput s)
    (itemDescriptionInput s) (formTitle s) (submitBtn s) (cancelBtn s)
    (detailsSection s) (itemDetails s) (alerts s).

Definition set_itemIdInput (v : option Z) (s : state) : state :=
  State (catalogData s) (editingItemId s) (itemsList s) v (itemNameInput s)
    (itemDescriptionInput s) (formTitle s) (submitBtn s) (cancelBtn s)
    (detailsSection s) (itemDetails s) (alerts s).

Definition set_itemNameInput (v : jsstring) (s : state) : state :=
  State (catalogData s) (editingItemId s) (itemsList s) (itemIdInput s) v
    (itemDescriptionInput s) (formTitle s) (submitBtn s) (cancelBtn s)
    (detailsSection s) (itemDetails s) (alerts s).

Definition set_itemDescriptionInput (v : jsstring) (s : state) : state :=
  State (catalogData s) (editingItemId s) (itemsList s) (itemIdInput s)
    (itemNameInput s) v (formTitle s) (submitBtn s) (cancelBtn s)
    (detailsSection s) (itemDetails s) (alerts s).

Definition set_formTitle (v : jsstring) (s : state) : state :=
  State (catalogData s) (editingItemId s) (itemsList s) (itemIdInput s)
    (itemNameInput s) (itemDescriptionInput s) v (submitBtn s) (cancelBtn s)
    (detailsSection s) (itemDetails s) (alerts s).

Definition set_submitBtn (v : jsstring) (s : state) : state :=
  State (catalogData s) (editingItemId s) (itemsList s) (itemIdInput s)
    (itemNameInput s) (itemDescriptionInput s) (formTitle s) v (cancelBtn s)
    (detailsSection s) (itemDetails s) (alerts s).

Definition set_cancelBtn (v : jsstring) (s : state) : state :=
  State (catalogData s) (editingItemId s) (itemsList s) (itemIdInput s)
    (itemNameInput s) (itemDescriptionInput s) (formTitle s) (submitBtn s) v
    (detailsSection s) (itemDetails s) (alerts s).

Definition set_detailsSection (v : jsstring) (s : state) : state :=
  State (catalogData s) (editingItemId s) (itemsList s) (itemIdInput s)
    (itemNameInput s) (itemDescriptionInput s) (formTitle s) (submitBtn s)
    (cancelBtn s) v (itemDetails s) (alerts s).

Definition set_itemDetails (v : option item) (s : state) : state :=
  State (catalogData s) (editingItemId s) (itemsList s) (itemIdInput s)
    (itemNameInput s) (itemDescriptionInput s) (formTitle s) (submitBtn s)
    (cancelBtn s) (detailsSection s) v (alerts s).

(** [alert(msg)] *)
Definition alert (msg : jsstring) (s : state) : state :=
  State (catalogData s) (editingItemId s) (itemsList s) (itemIdInput s)
    (itemNameInput s) (itemDescriptionInput s) (formTitle s) (submitBtn s)
    (cancelBtn s) (detailsSection s) (itemDetails s) (alerts s ++ [msg]).

(** The state when the script has run its top-level statements: the two
    globals have their initial values, the rest is the page's markup. *)
Definition script_loaded (page : state) : state :=
  set_editingItemId None (set_catalogData [] page).

(** ** Array searches *)

(** [catalogData.find(item => item.id === id)] *)
Definition find (id : Z) (c : list item) : option item :=
  snd <$> list_find (λ it, item_id it = id) c.

(** [catalogData.findIndex(item => item.id === id)]; [-1] is [None]. *)
Definition findIndex (id : Z) (c : list item) : option nat :=
  fst <$> list_find (λ it, item_id it = id) c.

(** ** Rendering *)

Definition renderList (s : state) : state :=
  if bool_decide (length (catalogData s) = 0%nat)
  then set_itemsList NoItemsMessage s
  else set_itemsList (Cards (catalogData s)) s.

Definition saveData (s : state) : state := renderList s.

Definition viewItemDetails (id : Z) (s : state) : state :=
  match find id (catalogData s) with
  | None => alert (lit "Item not found") s
  | Some it =>
      set_detailsSection (lit "block") (set_itemDetails (Some it) s)
  end.

Definition closeDetails (s : state) : state :=
  set_detailsSection (lit "none") s.

(** ** Loading the seed data *)

(** What [fetch('data.json')] and [response.json()] produced: a failure
    (rejected fetch, non-ok response, unparsable body), or an object whose
    [items] property is an array or is missing. *)
Inductive fetched : Type :=
  | FetchFailed
  | FetchedData (items : option (list item)).

Definition loadData (r : fetched) (s : state) : state :=
  match r with
  | FetchFailed => set_itemsList LoadErrorMessage s
  | FetchedData items => renderList (set_catalogData (default [] items) s)
  end.

(** ** Validation *)

Definition validateInput (name description : jsstring) (s : state)
  : bool * state :=
  if str_falsy name || bool_decide (trim name = [])
  then (false, alert (lit "Name field cannot be empty") s)
  else if str_falsy description || bool_decide (trim description = [])
  then (false, alert (lit "Description field cannot be empty") s)
  else (true, s).

(** ** The form *)

Definition resetForm (s : state) : state :=
  set_cancelBtn (lit "none")
    (set_submitBtn (lit "Add Item")
      (set_formTitle (lit "Add New Item")
        (set_itemDescriptionInput []
          (set_itemNameInput []
            (set_itemIdInput None
              (set_editingItemId None s)))))).

(** ** Add, edit, update, delete *)

(** [Math.max(x, ...xs)] *)
Definition Math_max (x : Z) (xs : list Z) : Z := foldl Z.max x xs.

(** The binary64 number nearest to the integer [z], ties to even. Integers
    of magnitude up to [2 ^ 53] are numbers themselves; beyond, the numbers
    around [z] are the multiples of [u], the power of two 52 places below
    the leading bit of [z]. ([z] is never beyond the largest number here:
    it is a number plus 1.) *)
Definition round_double (z : Z) : Z :=
  if Z.abs z <=? 2 ^ 53 then z
  else
    let u := 2 ^ (Z.log2 (Z.abs z) - 52) in
    let q := z / u in
    let r := z mod u in
    if 2 * r <? u then q * u
    else if u <? 2 * r then (q + 1) * u
    else if Z.even q then q * u
    else (q + 1) * u.

(** The id [addItem] gives to the new item:
    [catalogData.length > 0 ? Math.max(...ids) + 1 : 1]; the array has a
    positive length exactly when it has a first element, and the sum is a
    floating-point sum. *)
Definition newId (c : list item) : Z :=
  match c with
  | [] => 1
  | it :: rest => round_double (Math_max (item_id it) (item_id <$> rest) + 1)
  end.

Definition addItem (name description : jsstring) (s : state) : state :=
  let (ok, s1) := validateInput name description s in
  if negb ok then s1 else
  let newItem := Item (newId (catalogData s1)) (trim name) (trim description) in
  resetForm (saveData (set_catalogData (catalogData s1 ++ [newItem]) s1)).

Definition editItem (id : Z) (s : state) : state :=
  match find id (catalogData s) with
  | None => alert (lit "Item not found") s
  | Some it =>
      set_cancelBtn (lit "inline-block")
        (set_submitBtn (lit "Update Item")
          (set_formTitle (lit "Edit Item")
            (set_itemDescriptionInput (item_description it)
              (set_itemNameInput (item_name it)
                (set_itemIdInput (Some id)
                  (set_editingItemId (Some id) s))))))
  end.

Definition updateItem (id : Z) (name description : jsstring) (s : state)
  : state :=
  let (ok, s1) := validateInput name description s in
  if negb ok then s1 else
  match findIndex id (catalogData s1) with
  | None => alert (lit "Item not found") s1
  | Some itemIndex =>
      let c := <[itemIndex := Item id (trim name) (trim description)]>
                 (catalogData s1) in
      resetForm (saveData (set_catalogData c s1))
  end.

(** [answer] is what [confirm] returned. *)
Definition deleteItem (answer : bool) (id : Z) (s : state) : state :=
  if negb answer then s else
  match findIndex id (catalogData s) with
  | None => alert (lit "Item not found") s
  | Some itemIndex =>
      let s1 := saveData (set_catalogData (delete itemIndex (catalogData s)) s) in
      if bool_decide (detailsSection s1 ≠ lit "none")
      then closeDetails s1
      else s1
  end.

(** ** Event listeners *)

(** Truthiness of a number: [0] is falsy. *)
Definition truthy (n : Z) : bool := negb (n =? 0).

(** The submit listener: [if (editingItemId) updateItem(...) else
    addItem(...)], where [null] is falsy too. *)
Definition on_submit (s : state) : state :=
  let name := itemNameInput s in
  let description := itemDescriptionInput s in
  match editingItemId s with
  | Some id =>
      if truthy id
      then updateItem id name description s
      else addItem name description s
  | None => addItem name description s
  end.

Definition on_cancel (s : state) : state := resetForm s.

(** What can happen on the page once the seed data is loaded. The click
    handlers of a card carry an id; typing into a form field changes that
    field's value. *)
Inductive event : Type :=
  | Submit
  | Cancel
  | CloseDetails
  | View (id : Z)
  | Edit (id : Z)
  | Delete (id : Z) (answer : bool)
  | TypeName (v : jsstring)
  | TypeDescription (v : jsstring).

Definition handle (e : event) (s : state) : state :=
  match e with
  | Submit => on_submit s
  | Cancel => on_cancel s
  | CloseDetails => closeDetails s
  | View id => viewItemDetails id s
  | Edit id => editItem id s
  | Delete id answer => deleteItem answer id s
  | TypeName v => set_itemNameInput v s
  | TypeDescription v => set_itemDescriptionInput v s
  end.

Definition run (es : list event) (s : state) : state :=
  foldl (λ st e, handle e st) s es.

(** ** Vocabulary of the specification *)

(** Empty or all-whitespace. *)
Definition blank (s : jsstring) : Prop :=
  Forall (λ c, is_white_space c = true) s.

Global Instance blank_dec s : Decision (blank s).
Proof. unfold blank. apply _. Defined.

(** Non-empty after trimming. *)
Definition valid (s : jsstring) : Prop := trim s ≠ [].

(** The ids of the stored items, in store order. *)
Definition ids (c : list item) : list Z := item_id <$> c.

(** All ids of stored items are pairwise distinct. *)
Definition distinct_ids (c : list item) : Prop :=
  ∀ i j a b, c !! i = Some a → c !! j = Some b →
             item_id a = item_id b → i = j.

(** [m] is the maximum of the ids in [c]. *)
Definition max_id (c : list item) (m : Z) : Prop :=
  m ∈ ids c ∧ ∀ k, k ∈ ids c → k ≤ m.

(** Every stored id is at least [- 2 ^ 53] and below [b]. *)
Definition ids_within (b : Z) (c : list item) : Prop :=
  ∀ k, k ∈ ids c → - 2 ^ 53 ≤ k < b.

(** Every stored id is in the range where adding 1 is exact: at least
    [- 2 ^ 53] and at most [2 ^ 53 - 1], JavaScript's largest safe
    integer. *)
Definition safe_ids (c : list item) : Prop := ids_within (2 ^ 53) c.

(** A page before any item exists, used by the scenarios. *)
Definition blank_page : state :=
  State [] None MarkupOfPage None [] [] (lit "Add New Item") (lit "Add Item")
    (lit "none") (lit "none") None [].

(** The scenario of the specification: two items are added to an empty
    catalog, then the first is deleted. *)
Definition widget_added : state :=
  addItem (lit "Widget") (lit "A thing") blank_page.

Definition gadget_added : state :=
  addItem (lit "Gadget") (lit "Another") widget_added.

(** A catalog seeded with an item whose id is [0]. *)
Definition seeded_with_zero : state :=
  loadData
    (FetchedData (Some [Item 0 (lit "Zero") (lit "Seeded");
                        Item 5 (lit "Five") (lit "Seeded too")]))
    (script_loaded blank_page).


Definition seeded_past_limit : state :=
  loadData (FetchedData (Some [Item (2 ^ 53) (lit "Big") (lit "Seeded")]))
    (script_loaded blank_page).

Definition seeded_zero_past_limit : state :=
  loadData
    (FetchedData (Some [Item 0 (lit "Zero") (lit "Seeded");
                        Item (2 ^ 53) (lit "Big") (lit "Seeded")]))
    (script_loaded blank_page).


(** ** Invariants of the page *)

(** No white space at either end. *)
Definition trimmed (s : jsstring) : Prop :=
  (∀ c, head s = Some c → is_white_space c = false)
  ∧ (∀ c, last s = Some c → is_white_space c = false).

(** An item as [addItem] and [updateItem] build it: name and description
    are not empty and carry no white space at either end. *)
Definition well_formed (it : item) : Prop :=
  item_name it ≠ [] ∧ trimmed (item_name it)
  ∧ item_description it ≠ [] ∧ trimmed (item_description it).

(** The list on the page shows the catalog as it is now. *)
Definition list_in_sync (s : state) : Prop :=
  (catalogData s = [] ∧ itemsList s = NoItemsMessage)
  ∨ (catalogData s ≠ [] ∧ itemsList s = Cards (catalogData s)).

(** The hidden id field, the title, the submit label and the cancel button
    agree with [editingItemId]. *)
Definition form_tracks_mode (s : state) : Prop :=
  match editingItemId s with
  | None =>
      itemIdInput s = None ∧ formTitle s = lit "Add New Item"
      ∧ submitBtn s = lit "Add Item" ∧ cancelBtn s = lit "none"
  | Some id =>
      itemIdInput s = Some id ∧ formTitle s = lit "Edit Item"
      ∧ submitBtn s = lit "Update Item" ∧ cancelBtn s = lit "inline-block"
  end.

(** The three messages the script passes to [alert]. *)
Definition messages : list jsstring :=
  [lit "Name field cannot be empty";
   lit "Description field cannot be empty";
   lit "Item not found"].

(** ** Strings: trimming *)

Lemma trim_start_nil s : trim_start s = [] ↔ blank s.
Proof.
  unfold blank. induction s as [|c r IH]; simpl.
  - split; [constructor | done].
  - destruct (is_white_space c) eqn:Hc.
    + rewrite IH. split; [by constructor | by inversion 1].
    + split; [done | inversion 1; congruence].
Qed.

Lemma blank_trim_start s : blank (trim_start s) ↔ blank s.
Proof.
  unfold blank. induction s as [|c r IH]; simpl; [done|].
  destruct (is_white_space c) eqn:Hc; [|done].
  rewrite IH. split; [by constructor | by inversion 1].
Qed.

Lemma trim_nil s : trim s = [] ↔ blank s.
Proof.
  unfold trim, trim_end.
  transitivity (trim_start (reverse (trim_start s)) = []).
  { split; intros H; [|by rewrite H].
    apply (f_equal reverse) in H. by rewrite reverse_involutive in H. }
  rewrite trim_start_nil. unfold blank at 1.
  rewrite Forall_reverse. apply blank_trim_start.
Qed.

Lemma valid_not_blank s : valid s ↔ ¬ blank s.
Proof. unfold valid. by rewrite trim_nil. Qed.

(** ** Validation *)

Lemma validateInput_blank_name name description s :
  blank name →
  validateInput name description s
  = (false, alert (lit "Name field cannot be empty") s).
Proof.
  intros H%trim_nil. unfold validateInput.
  by rewrite (bool_decide_eq_true_2 _ H), orb_true_r.
Qed.

Lemma str_falsy_valid s : valid s → str_falsy s = false.
Proof.
  intros H. apply bool_decide_eq_false_2. intros ->. by apply H.
Qed.

Lemma validateInput_blank_description name description s :
  valid name → blank description →
  validateInput name description s
  = (false, alert (lit "Description field cannot be empty") s).
Proof.
  intros Hn Hd%trim_nil. unfold validateInput.
  rewrite (str_falsy_valid _ Hn), (bool_decide_eq_false_2 _ Hn). simpl.
  by rewrite (bool_decide_eq_true_2 _ Hd), orb_true_r.
Qed.

Lemma validateInput_valid name description s :
  valid name → valid description →
  validateInput name description s = (true, s).
Proof.
  intros Hn Hd. unfold validateInput.
  rewrite (str_falsy_valid _ Hn), (bool_decide_eq_false_2 _ Hn). simpl.
  by rewrite (str_falsy_valid _ Hd), (bool_decide_eq_false_2 _ Hd).
Qed.

(** ** The store: searches *)

Lemma find_findIndex id c :
  findIndex id c = None ↔ find id c = None.
Proof.
  unfold find, findIndex.
  by destruct (list_find _ c) as [[i it]|].
Qed.

Lemma find_None id c : find id c = None ↔ id ∉ ids c.
Proof.
  unfold find, ids. rewrite fmap_None, list_find_None, Forall_forall.
  rewrite list_elem_of_fmap. split.
  - intros H (it & -> & Hin). by apply (H it).
  - intros H it Hin Heq. apply H. by exists it.
Qed.

Lemma findIndex_None id c : findIndex id c = None ↔ id ∉ ids c.
Proof. by rewrite find_findIndex, find_None. Qed.

(** [findIndex] gives the first position holding the id. *)
Lemma findIndex_Some id c i :
  findIndex id c = Some i ↔
  ∃ it, c !! i = Some it ∧ item_id it = id ∧
        ∀ j it', c !! j = Some it' → (j < i)%nat → item_id it' ≠ id.
Proof.
  unfold findIndex. rewrite fmap_Some. split.
  - intros ([j it] & H & ->). apply list_find_Some in H. by exists it.
  - intros (it & H). exists (i, it). split; [|done]. by apply list_find_Some.
Qed.

Lemma find_Some id c it :
  find id c = Some it ↔
  ∃ i, findIndex id c = Some i ∧ c !! i = Some it.
Proof.
  unfold find, findIndex. destruct (list_find _ c) as [[i x]|] eqn:H; simpl.
  - apply list_find_Some in H as (Hx & _ & _). split.
    + intros [= <-]. by exists i.
    + intros (j & [= <-] & Hj). congruence.
  - split; [done | by intros (? & ? & _)].
Qed.

Lemma find_id id c it : find id c = Some it → item_id it = id ∧ it ∈ c.
Proof.
  intros (i & (it' & Hi & Hid & _)%findIndex_Some & Hit)%find_Some.
  assert (it' = it) as -> by congruence.
  split; [done|]. by eapply list_elem_of_lookup_2.
Qed.

(** ** The store: distinct ids *)

Lemma distinct_ids_NoDup c : distinct_ids c ↔ NoDup (ids c).
Proof.
  unfold distinct_ids, ids. rewrite NoDup_alt. split.
  - intros H i j x Hi Hj.
    apply list_lookup_fmap_Some in Hi as (a & -> & Ha).
    apply list_lookup_fmap_Some in Hj as (b & Hab & Hb).
    by apply (H i j a b).
  - intros H i j a b Ha Hb Hab.
    apply (H i j (item_id a)).
    + by rewrite list_lookup_fmap, Ha.
    + by rewrite list_lookup_fmap, Hb, Hab.
Qed.

(** ** Id generation *)

Lemma Math_max_ge_first xs : ∀ x, x ≤ Math_max x xs.
Proof.
  unfold Math_max. induction xs as [|y ys IH]; intros x; simpl; [lia|].
  specialize (IH (Z.max x y)). lia.
Qed.

Lemma Math_max_ge xs : ∀ x k, k ∈ xs → k ≤ Math_max x xs.
Proof.
  induction xs as [|y ys IH]; intros x k Hk; [by apply elem_of_nil in Hk|].
  apply elem_of_cons in Hk as [->|Hk].
  - pose proof (Math_max_ge_first ys (Z.max x y)) as H.
    unfold Math_max in *. simpl. lia.
  - unfold Math_max in *. simpl. by apply IH.
Qed.

Lemma Math_max_elem xs : ∀ x, Math_max x xs ∈ x :: xs.
Proof.
  induction xs as [|y ys IH]; intros x; [by left|].
  unfold Math_max in *. simpl.
  specialize (IH (Z.max x y)).
  apply elem_of_cons in IH as [IH|IH].
  - rewrite IH. destruct (Z.max_spec x y) as [[_ ->]|[_ ->]].
    + right. by left.
    + by left.
  - right. by right.
Qed.

Lemma newId_nil : newId [] = 1.
Proof. done. Qed.

Lemma round_double_exact z : - 2 ^ 53 ≤ z ≤ 2 ^ 53 → round_double z = z.
Proof.
  intros Hz. unfold round_double.
  destruct (Z.leb_spec (Z.abs z) (2 ^ 53)) as [_|Hbig]; [done|]. lia.
Qed.

(** Past [2 ^ 53] the numbers are 2 apart, then 4 apart: a sum that falls
    between two of them goes to the nearer one, and to the one with the
    even significand when it is half way. *)
Example round_double_ties :
  round_double (2 ^ 53 + 1) = 2 ^ 53
  ∧ round_double (2 ^ 53 + 3) = 2 ^ 53 + 4
  ∧ round_double (2 ^ 54 + 1) = 2 ^ 54
  ∧ round_double (2 ^ 54 + 3) = 2 ^ 54 + 4
  ∧ round_double (- 2 ^ 53 - 1) = - 2 ^ 53
  ∧ round_double (- 2 ^ 53 - 3) = - 2 ^ 53 - 4.
Proof. by vm_compute. Qed.

Lemma ids_within_mono b b' c : b ≤ b' → ids_within b c → ids_within b' c.
Proof. intros Hb Hc k Hk. specialize (Hc k Hk). lia. Qed.

(** With safe ids the sum is exact. *)
Lemma newId_exact it rest :
  safe_ids (it :: rest) →
  newId (it :: rest) = Math_max (item_id it) (item_id <$> rest) + 1.
Proof.
  intros Hsafe. unfold newId. apply round_double_exact.
  pose proof (Math_max_elem (item_id <$> rest) (item_id it)) as Hin.
  specialize (Hsafe (Math_max (item_id it) (item_id <$> rest))).
  unfold ids in Hsafe. rewrite fmap_cons in Hsafe. specialize (Hsafe Hin).
  lia.
Qed.

Lemma newId_max c : c ≠ [] → safe_ids c → max_id c (newId c - 1).
Proof.
  destruct c as [|it rest]; [done|]. intros _ Hsafe.
  rewrite (newId_exact _ _ Hsafe).
  unfold max_id, ids. rewrite fmap_cons.
  replace (Math_max (item_id it) (item_id <$> rest) + 1 - 1)
    with (Math_max (item_id it) (item_id <$> rest)) by lia.
  split; [apply Math_max_elem|].
  intros k [->|Hk]%elem_of_cons.
  - apply Math_max_ge_first.
  - by apply Math_max_ge.
Qed.

Lemma newId_gt c k : safe_ids c → k ∈ ids c → k < newId c.
Proof.
  intros Hsafe Hk. destruct (decide (c = [])) as [->|Hc].
  - by apply elem_of_nil in Hk.
  - destruct (newId_max c Hc Hsafe) as [_ H]. specialize (H k Hk). lia.
Qed.

Lemma newId_fresh c : safe_ids c → newId c ∉ ids c.
Proof. intros Hsafe H%(newId_gt _ _ Hsafe). lia. Qed.


(** ** What the operations do to the store *)

Lemma catalogData_renderList s : catalogData (renderList s) = catalogData s.
Proof. unfold renderList. by case_bool_decide. Qed.

Lemma detailsSection_renderList s :
  detailsSection (renderList s) = detailsSection s.
Proof. unfold renderList. by case_bool_decide. Qed.

Lemma itemDetails_renderList s : itemDetails (renderList s) = itemDetails s.
Proof. unfold renderList. by case_bool_decide. Qed.

Lemma addItem_valid name description s :
  valid name → valid description →
  addItem name description s
  = resetForm (saveData (set_catalogData
      (catalogData s
       ++ [Item (newId (catalogData s)) (trim name) (trim description)]) s)).
Proof.
  intros Hn Hd. unfold addItem.
  by rewrite (validateInput_valid _ _ _ Hn Hd).
Qed.

Lemma catalogData_addItem_valid name description s :
  valid name → valid description →
  catalogData (addItem name description s)
  = catalogData s
    ++ [Item (newId (catalogData s)) (trim name) (trim description)].
Proof.
  intros Hn Hd. rewrite (addItem_valid _ _ _ Hn Hd).
  unfold resetForm, saveData. simpl. by rewrite catalogData_renderList.
Qed.

Lemma updateItem_valid id name description s :
  valid name → valid description →
  updateItem id name description s
  = match findIndex id (catalogData s) with
    | None => alert (lit "Item not found") s
    | Some itemIndex =>
        resetForm (saveData (set_catalogData
          (<[itemIndex := Item id (trim name) (trim description)]>
             (catalogData s)) s))
    end.
Proof.
  intros Hn Hd. unfold updateItem.
  by rewrite (validateInput_valid _ _ _ Hn Hd).
Qed.

Lemma catalogData_updateItem id name description s :
  catalogData (updateItem id name description s)
  = if decide (valid name ∧ valid description)
    then match findIndex id (catalogData s) with
         | None => catalogData s
         | Some i => <[i := Item id (trim name) (trim description)]>
                       (catalogData s)
         end
    else catalogData s.
Proof.
  case_decide as Hv.
  - destruct Hv as [Hn Hd]. rewrite (updateItem_valid _ _ _ _ Hn Hd).
    destruct (findIndex id (catalogData s)); [|done].
    unfold resetForm, saveData. simpl. by rewrite catalogData_renderList.
  - unfold updateItem.
    destruct (decide (blank name)) as [Hn|Hn].
    + by rewrite (validateInput_blank_name _ _ _ Hn).
    + apply valid_not_blank in Hn.
      assert (blank description) as Hd.
      { destruct (decide (blank description)) as [|Hd]; [done|].
        apply valid_not_blank in Hd. by destruct Hv. }
      by rewrite (validateInput_blank_description _ _ _ Hn Hd).
Qed.

Lemma catalogData_deleteItem answer id s :
  catalogData (deleteItem answer id s)
  = match findIndex id (catalogData s) with
    | Some i => if answer then delete i (catalogData s) else catalogData s
    | None => catalogData s
    end.
Proof.
  unfold deleteItem. destruct answer; simpl.
  - destruct (findIndex id (catalogData s)); [|done].
    unfold saveData. case_bool_decide; simpl; by rewrite catalogData_renderList.
  - by destruct (findIndex id (catalogData s)).
Qed.

Lemma catalogData_addItem name description s :
  catalogData (addItem name description s)
  = if decide (valid name ∧ valid description)
    then catalogData s
         ++ [Item (newId (catalogData s)) (trim name) (trim description)]
    else catalogData s.
Proof.
  case_decide as Hv.
  - destruct Hv. by apply catalogData_addItem_valid.
  - unfold addItem.
    destruct (decide (blank name)) as [Hn|Hn].
    + by rewrite (validateInput_blank_name _ _ _ Hn).
    + apply valid_not_blank in Hn.
      assert (blank description) as Hd.
      { destruct (decide (blank description)) as [|Hd]; [done|].
        apply valid_not_blank in Hd. by destruct Hv. }
      by rewrite (validateInput_blank_description _ _ _ Hn Hd).
Qed.

(** ** Distinct ids are preserved *)

Lemma ids_snoc c it : ids (c ++ [it]) = ids c ++ [item_id it].
Proof. unfold ids. by rewrite fmap_app. Qed.



(** Overwriting the slot found for [id] with an item of the same id leaves
    the ids as they were. *)
Lemma ids_replace id c i name description :
  findIndex id c = Some i →
  ids (<[i := Item id name description]> c) = ids c.
Proof.
  intros (it & Hi & Hid & _)%findIndex_Some.
  unfold ids. rewrite list_fmap_insert. simpl.
  apply list_insert_id. by rewrite list_lookup_fmap, Hi, <- Hid.
Qed.


(** With distinct ids, removing the slot found for [id] removes the id. *)
Lemma ids_delete_found id c i :
  distinct_ids c → findIndex id c = Some i → id ∉ ids (delete i c).
Proof.
  intros Hc (it & Hi & Hid & _)%findIndex_Some Hin.
  unfold ids in Hin.
  apply list_elem_of_fmap in Hin as (it' & -> & Hin).
  apply list_elem_of_lookup in Hin as (j & Hj).
  destruct (decide (j < i)%nat) as [Hlt|Hge].
  - rewrite list_lookup_delete_lt in Hj by done.
    specialize (Hc j i it' it Hj Hi (eq_sym Hid)). lia.
  - rewrite list_lookup_delete_ge in Hj by lia.
    specialize (Hc (S j) i it' it Hj Hi (eq_sym Hid)). lia.
Qed.

Lemma catalogData_viewItemDetails id s :
  catalogData (viewItemDetails id s) = catalogData s.
Proof. unfold viewItemDetails. by destruct (find id (catalogData s)). Qed.

Lemma catalogData_editItem id s :
  catalogData (editItem id s) = catalogData s.
Proof. unfold editItem. by destruct (find id (catalogData s)). Qed.








Lemma run_snoc es e s : run (es ++ [e]) s = handle e (run es s).
Proof. unfold run. by rewrite foldl_app. Qed.


(** ** Adding, then looking up *)

Lemma find_snoc_fresh c it :
  item_id it ∉ ids c → find (item_id it) (c ++ [it]) = Some it.
Proof.
  intros Hfresh. apply find_Some. exists (length c). split.
  - apply findIndex_Some. exists it. split_and!; [|done|].
    + by rewrite lookup_app_r, Nat.sub_diag.
    + intros j it' Hj Hlt Heq. apply Hfresh.
      rewrite lookup_app_l in Hj by done.
      unfold ids. apply list_elem_of_fmap. exists it'.
      split; [done|]. by eapply list_elem_of_lookup_2.
  - by rewrite lookup_app_r, Nat.sub_diag.
Qed.

(** * Properties of the specification *)

(** C2 as stated does not hold: in a catalog whose one item has the id
    [2 ^ 53], that id is the maximum and the next id is [2 ^ 53] again, not
    the maximum plus 1; Add stores its item under it. *)
Lemma C2_id_past_safe_range :
  max_id (catalogData seeded_past_limit) (2 ^ 53)
  ∧ newId (catalogData seeded_past_limit) = 2 ^ 53
  ∧ catalogData (addItem (lit "Widget") (lit "A thing") seeded_past_limit)
    = [Item (2 ^ 53) (lit "Big") (lit "Seeded");
       Item (2 ^ 53) (lit "Widget") (lit "A thing")]
  ∧ ¬ max_id (catalogData seeded_past_limit)
        (newId (catalogData seeded_past_limit) - 1).
Proof.
  split_and!; [|by vm_compute..|].
  - split; [vm_compute; apply list_elem_of_here|].
    intros k Hk. vm_compute in Hk.
    apply list_elem_of_singleton in Hk as ->. done.
  - intros [Hin _]. vm_compute in Hin.
    by apply list_elem_of_singleton in Hin.
Qed.

(** C2, amended. When every stored id is at least [- 2 ^ 53] and at most
    [2 ^ 53 - 1], the id given to a newly added item is 1 when the store is
    empty and the maximum of the existing ids plus 1 otherwise; after Add,
    Add, Delete(1) the store is the single item of id 2 and the next id is
    3. *)
Theorem C2_new_id_is_max_plus_one :
  (∀ (s : state) (name description : jsstring),
     valid name → valid description → safe_ids (catalogData s) →
     ∃ k, catalogData (addItem name description s)
          = catalogData s ++ [Item k (trim name) (trim description)]
        ∧ (catalogData s = [] → k = 1)
        ∧ (catalogData s ≠ [] → max_id (catalogData s) (k - 1)))
  ∧ catalogData widget_added = [Item 1 (lit "Widget") (lit "A thing")]
  ∧ ids (catalogData gadget_added) = [1; 2]
  ∧ catalogData (deleteItem true 1 gadget_added)
    = [Item 2 (lit "Gadget") (lit "Another")]
  ∧ newId (catalogData (deleteItem true 1 gadget_added)) = 3.
Proof.
  split; [|by vm_compute].
  intros s name description Hn Hd Hsafe.
  exists (newId (catalogData s)). split_and!.
  - by apply catalogData_addItem_valid.
  - by intros ->.
  - intros Hne. by apply newId_max.
Qed.

Lemma C2_witness :
  valid (lit "Gadget") ∧ valid (lit "Another") ∧
  safe_ids (catalogData widget_added) ∧
  ∃ k, catalogData (addItem (lit "Gadget") (lit "Another") widget_added)
       = catalogData widget_added ++ [Item k (trim (lit "Gadget"))
                                             (trim (lit "Another"))]
     ∧ (catalogData widget_added = [] → k = 1)
     ∧ (catalogData widget_added ≠ [] → max_id (catalogData widget_added) (k - 1)).
Proof.
  assert (valid (lit "Gadget")) as Hn by (by vm_compute).
  assert (valid (lit "Another")) as Hd by (by vm_compute).
  assert (safe_ids (catalogData widget_added)) as Hsafe.
  { intros k Hk. vm_compute in Hk.
    apply list_elem_of_singleton in Hk as ->. lia. }
  split_and!; [done..|].
  exact (proj1 C2_new_id_is_max_plus_one widget_added _ _ Hn Hd Hsafe).
Defined.

(** C3. When the name is empty or all-whitespace, or the description is,
    Add signals the corresponding error and leaves the store exactly as it
    was (the name is checked first). *)
Theorem C3_add_rejects_blank_fields
    (s : state) (name description : jsstring) :
  (blank name →
     addItem name description s
     = alert (lit "Name field cannot be empty") s)
  ∧ (¬ blank name → blank description →
     addItem name description s
     = alert (lit "Description field cannot be empty") s)
  ∧ (blank name ∨ blank description →
     catalogData (addItem name description s) = catalogData s
     ∧ ∃ msg, alerts (addItem name description s) = alerts s ++ [msg]
            ∧ (msg = lit "Name field cannot be empty" ∧ blank name
               ∨ msg = lit "Description field cannot be empty"
                 ∧ blank description)).
Proof.
  assert (blank name →
          addItem name description s
          = alert (lit "Name field cannot be empty") s) as Hname.
  { intros Hn. unfold addItem.
    by rewrite (validateInput_blank_name _ _ _ Hn). }
  assert (¬ blank name → blank description →
          addItem name description s
          = alert (lit "Description field cannot be empty") s) as Hdesc.
  { intros Hn%valid_not_blank Hd. unfold addItem.
    by rewrite (validateInput_blank_description _ _ _ Hn Hd). }
  split_and!; [done..|].
  intros Hblank. destruct (decide (blank name)) as [Hn|Hn].
  - rewrite (Hname Hn). split; [done|]. eexists. split; [done|]. by left.
  - destruct Hblank as [?|Hd]; [done|].
    rewrite (Hdesc Hn Hd). split; [done|]. eexists. split; [done|]. by right.
Qed.

Lemma C3_witness :
  blank (lit "   ") ∧ ¬ blank (lit "Widget") ∧ blank [] ∧
  addItem (lit "   ") (lit "A thing") widget_added
  = alert (lit "Name field cannot be empty") widget_added ∧
  addItem (lit "Widget") [] widget_added
  = alert (lit "Description field cannot be empty") widget_added ∧
  catalogData (addItem (lit "Widget") [] widget_added)
  = catalogData widget_added.
Proof.
  assert (blank (lit "   ")) as H1 by (by vm_compute; repeat constructor).
  assert (¬ blank (lit "Widget")) as H2.
  { apply valid_not_blank. by vm_compute. }
  assert (blank []) as H3 by constructor.
  split_and!; [done..| | |].
  - exact (proj1 (C3_add_rejects_blank_fields widget_added (lit "   ")
                    (lit "A thing")) H1).
  - exact (proj1 (proj2 (C3_add_rejects_blank_fields widget_added
                    (lit "Widget") [])) H2 H3).
  - exact (proj1 (proj2 (proj2 (C3_add_rejects_blank_fields widget_added
                    (lit "Widget") [])) (or_intror H3))).
Defined.

(** C4. With valid name and description, Update of an id that no stored
    item has signals NotFound and leaves the store exactly as it was. *)
Theorem C4_update_absent_id
    (s : state) (id : Z) (name description : jsstring) :
  valid name → valid description →
  (∀ it, it ∈ catalogData s → item_id it ≠ id) →
  updateItem id name description s = alert (lit "Item not found") s
  ∧ catalogData (updateItem id name description s) = catalogData s
  ∧ alerts (updateItem id name description s)
    = alerts s ++ [lit "Item not found"].
Proof.
  intros Hn Hd Habsent.
  assert (findIndex id (catalogData s) = None) as Hi.
  { apply findIndex_None. unfold ids.
    intros (it & -> & Hin)%list_elem_of_fmap. by apply (Habsent it). }
  rewrite (updateItem_valid _ _ _ _ Hn Hd), Hi. done.
Qed.

Lemma C4_witness :
  valid (lit "Widget") ∧ valid (lit "A thing") ∧
  (∀ it, it ∈ catalogData gadget_added → item_id it ≠ 7) ∧
  updateItem 7 (lit "Widget") (lit "A thing") gadget_added
  = alert (lit "Item not found") gadget_added
  ∧ catalogData (updateItem 7 (lit "Widget") (lit "A thing") gadget_added)
    = catalogData gadget_added
  ∧ alerts (updateItem 7 (lit "Widget") (lit "A thing") gadget_added)
    = alerts gadget_added ++ [lit "Item not found"].
Proof.
  assert (valid (lit "Widget")) as Hn by (by vm_compute).
  assert (valid (lit "A thing")) as Hd by (by vm_compute).
  assert (∀ it, it ∈ catalogData gadget_added → item_id it ≠ 7) as Habsent.
  { intros it Hin. vm_compute in Hin.
    apply elem_of_cons in Hin as [->|Hin]; [done|].
    apply elem_of_cons in Hin as [->|Hin]; [done|].
    by apply elem_of_nil in Hin. }
  split_and!; [done..| | |];
    apply (C4_update_absent_id gadget_added 7 (lit "Widget") (lit "A thing")
             Hn Hd Habsent).
Defined.

(** C5 as stated does not hold: in a catalog whose one item has the id
    [2 ^ 53], a valid Add stores its item under [2 ^ 53] too, an id that is
    not new, and looking that id up gives the seeded item, whose name and
    description are not the inputs. *)
Lemma C5_lookup_past_safe_range :
  2 ^ 53 ∈ ids (catalogData seeded_past_limit)
  ∧ catalogData (addItem (lit "Widget") (lit "A thing") seeded_past_limit)
    = catalogData seeded_past_limit
      ++ [Item (2 ^ 53) (trim (lit "Widget")) (trim (lit "A thing"))]
  ∧ find (2 ^ 53)
      (catalogData (addItem (lit "Widget") (lit "A thing") seeded_past_limit))
    = Some (Item (2 ^ 53) (lit "Big") (lit "Seeded"))
  ∧ Item (2 ^ 53) (lit "Big") (lit "Seeded")
    ≠ Item (2 ^ 53) (trim (lit "Widget")) (trim (lit "A thing")).
Proof.
  split_and!; [|by vm_compute..].
  vm_compute. apply list_elem_of_here.
Qed.

(** C5, amended. With valid input and every stored id at least [- 2 ^ 53]
    and at most [2 ^ 53 - 1], Add assigns an id that no stored item had,
    and looking that id up in the resulting store gives an item whose name
    and description are the trimmed inputs. *)
Theorem C5_add_then_find
    (s : state) (name description : jsstring) :
  valid name → valid description → safe_ids (catalogData s) →
  ∃ newid,
    (newid ∉ ids (catalogData s))
    ∧ catalogData (addItem name description s)
      = catalogData s ++ [Item newid (trim name) (trim description)]
    ∧ find newid (catalogData (addItem name description s))
      = Some (Item newid (trim name) (trim description))
    ∧ itemDetails (viewItemDetails newid (addItem name description s))
      = Some (Item newid (trim name) (trim description)).
Proof.
  intros Hn Hd Hsafe. exists (newId (catalogData s)).
  pose proof (newId_fresh (catalogData s) Hsafe) as Hfresh.
  assert (find (newId (catalogData s))
            (catalogData (addItem name description s))
          = Some (Item (newId (catalogData s)) (trim name) (trim description)))
    as Hfind.
  { rewrite (catalogData_addItem_valid _ _ _ Hn Hd).
    by apply (find_snoc_fresh (catalogData s)
                (Item (newId (catalogData s)) (trim name) (trim description))). }
  split_and!; [done | by apply catalogData_addItem_valid | done |].
  unfold viewItemDetails. by rewrite Hfind.
Qed.

Lemma C5_witness :
  valid (lit "  Gadget ") ∧ valid (lit " Another") ∧
  safe_ids (catalogData widget_added) ∧
  ∃ newid,
    (newid ∉ ids (catalogData widget_added))
    ∧ catalogData (addItem (lit "  Gadget ") (lit " Another") widget_added)
      = catalogData widget_added
        ++ [Item newid (trim (lit "  Gadget ")) (trim (lit " Another"))]
    ∧ find newid
        (catalogData (addItem (lit "  Gadget ") (lit " Another") widget_added))
      = Some (Item newid (trim (lit "  Gadget ")) (trim (lit " Another")))
    ∧ itemDetails (viewItemDetails newid
        (addItem (lit "  Gadget ") (lit " Another") widget_added))
      = Some (Item newid (trim (lit "  Gadget ")) (trim (lit " Another"))).
Proof.
  assert (valid (lit "  Gadget ")) as Hn by (by vm_compute).
  assert (valid (lit " Another")) as Hd by (by vm_compute).
  assert (safe_ids (catalogData widget_added)) as Hsafe.
  { intros k Hk. vm_compute in Hk.
    apply list_elem_of_singleton in Hk as ->. lia. }
  split_and!; [done..|].
  exact (C5_add_then_find widget_added (lit "  Gadget ") (lit " Another")
           Hn Hd Hsafe).
Defined.




(** C7. When the store holds an item with the given id and the input is
    valid, Update replaces that item in place: same position, same id, the
    trimmed new name and description; every other slot is unchanged. *)
Theorem C7_update_in_place
    (s : state) (id : Z) (name description : jsstring) (old : item) :
  valid name → valid description →
  old ∈ catalogData s → item_id old = id →
  ∃ i it,
    findIndex id (catalogData s) = Some i
    ∧ catalogData s !! i = Some it ∧ item_id it = id
    ∧ catalogData (updateItem id name description s) !! i
      = Some (Item id (trim name) (trim description))
    ∧ length (catalogData (updateItem id name description s))
      = length (catalogData s)
    ∧ ∀ j, j ≠ i →
        catalogData (updateItem id name description s) !! j
        = catalogData s !! j.
Proof.
  intros Hn Hd Hin Hid.
  destruct (findIndex id (catalogData s)) as [i|] eqn:Hi.
  - pose proof Hi as (it & Hit & Hitid & _)%findIndex_Some.
    exists i, it. rewrite catalogData_updateItem.
    rewrite decide_True by done. rewrite Hi.
    split_and!; [done..| | |].
    + apply list_lookup_insert_eq. by eapply lookup_lt_Some.
    + apply length_insert.
    + intros j Hj. by apply list_lookup_insert_ne.
  - exfalso. apply findIndex_None in Hi. apply Hi.
    unfold ids. apply list_elem_of_fmap. by exists old.
Qed.

Lemma C7_witness :
  valid (lit " Gadget 2 ") ∧ valid (lit "Renamed") ∧
  Item 2 (lit "Gadget") (lit "Another") ∈ catalogData gadget_added ∧
  ∃ i it,
    findIndex 2 (catalogData gadget_added) = Some i
    ∧ catalogData gadget_added !! i = Some it ∧ item_id it = 2
    ∧ catalogData
        (updateItem 2 (lit " Gadget 2 ") (lit "Renamed") gadget_added) !! i
      = Some (Item 2 (trim (lit " Gadget 2 ")) (trim (lit "Renamed")))
    ∧ length (catalogData
        (updateItem 2 (lit " Gadget 2 ") (lit "Renamed") gadget_added))
      = length (catalogData gadget_added)
    ∧ ∀ j, j ≠ i →
        catalogData
          (updateItem 2 (lit " Gadget 2 ") (lit "Renamed") gadget_added) !! j
        = catalogData gadget_added !! j.
Proof.
  assert (valid (lit " Gadget 2 ")) as Hn by (by vm_compute).
  assert (valid (lit "Renamed")) as Hd by (by vm_compute).
  assert (Item 2 (lit "Gadget") (lit "Another") ∈ catalogData gadget_added)
    as Hin.
  { vm_compute. apply list_elem_of_further, list_elem_of_here. }
  split_and!; [done..|].
  exact (C7_update_in_place gadget_added 2 _ _ _ Hn Hd Hin eq_refl).
Defined.

(** C8. When the confirmation prompt is answered no, Delete changes
    nothing: the state after it, the store included, is the state before. *)
Theorem C8_delete_declined (s : state) (id : Z) :
  deleteItem false id s = s
  ∧ catalogData (deleteItem false id s) = catalogData s.
Proof. done. Qed.

(** C9 as stated does not hold in one respect: the id of the new item need
    not be fresh. In the catalog seeded with the ids 0 and [2 ^ 53], Edit of
    0, typing and Submit run Add, and the item Add appends has the id
    [2 ^ 53], which a stored item already has. *)
Lemma C9_added_id_not_fresh :
  let editing :=
    run [Edit 0; TypeName (lit "Zero+"); TypeDescription (lit "Edited")]
      seeded_zero_past_limit in
  ids (catalogData seeded_zero_past_limit) = [0; 2 ^ 53]
  ∧ editingItemId editing = Some 0
  ∧ ids (catalogData (handle Submit editing)) = [0; 2 ^ 53; 2 ^ 53]
  ∧ find 0 (catalogData (handle Submit editing))
    = Some (Item 0 (lit "Zero") (lit "Seeded")).
Proof. by vm_compute. Qed.

(** C9, amended. When the store holds an item of id 0 and the form has been
    put in editing mode for it, submitting the form runs Add, which appends
    a new item under the id Add generates, and not Update(0): the listener's
    test of [editingItemId] takes 0 for "not editing". The id is fresh when
    every stored id is at least [- 2 ^ 53] and at most [2 ^ 53 - 1]. *)
Theorem C9_editing_id_zero_submits_add
    (s : state) (zero : item) (name description : jsstring) :
  zero ∈ catalogData s → item_id zero = 0 →
  let editing := run [Edit 0; TypeName name; TypeDescription description] s in
  editingItemId editing = Some 0
  ∧ handle Submit editing = addItem name description editing
  ∧ (valid name → valid description →
       catalogData (handle Submit editing)
       = catalogData s
         ++ [Item (newId (catalogData s)) (trim name) (trim description)]
       ∧ (safe_ids (catalogData s) →
          newId (catalogData s) ∉ ids (catalogData s))
       ∧ catalogData (handle Submit editing)
         ≠ catalogData (updateItem 0 name description editing)).
Proof.
  intros Hin Hid editing.
  assert (∃ it, find 0 (catalogData s) = Some it) as [it Hfind].
  { destruct (find 0 (catalogData s)) as [it|] eqn:Hf; [by exists it|].
    apply find_None in Hf. exfalso. apply Hf.
    unfold ids. apply list_elem_of_fmap. by exists zero. }
  assert (editingItemId editing = Some 0) as Hmode.
  { subst editing. unfold run. simpl. unfold editItem. by rewrite Hfind. }
  assert (itemNameInput editing = name) as Hname by done.
  assert (itemDescriptionInput editing = description) as Hdesc by done.
  assert (catalogData editing = catalogData s) as Hcat.
  { subst editing. unfold run. simpl. by rewrite catalogData_editItem. }
  assert (handle Submit editing = addItem name description editing) as Hsub.
  { simpl. unfold on_submit. by rewrite Hmode, Hname, Hdesc. }
  split_and!; [done..|].
  intros Hn Hd. rewrite Hsub.
  rewrite (catalogData_addItem_valid _ _ _ Hn Hd), Hcat.
  split_and!; [done | apply newId_fresh |].
  intros Heq. apply (f_equal length) in Heq.
  rewrite catalogData_updateItem, length_app in Heq.
  rewrite decide_True in Heq by done.
  destruct (findIndex 0 (catalogData editing));
    rewrite ?length_insert, Hcat in Heq; simpl in Heq; lia.
Qed.

Lemma C9_witness :
  Item 0 (lit "Zero") (lit "Seeded") ∈ catalogData seeded_with_zero ∧
  valid (lit "Zero+") ∧ valid (lit "Edited") ∧
  safe_ids (catalogData seeded_with_zero) ∧
  let editing :=
    run [Edit 0; TypeName (lit "Zero+"); TypeDescription (lit "Edited")]
      seeded_with_zero in
  editingItemId editing = Some 0
  ∧ handle Submit editing = addItem (lit "Zero+") (lit "Edited") editing
  ∧ ids (catalogData (handle Submit editing)) = [0; 5; 6]
  ∧ (newId (catalogData seeded_with_zero)
     ∉ ids (catalogData seeded_with_zero)).
Proof.
  assert (Item 0 (lit "Zero") (lit "Seeded") ∈ catalogData seeded_with_zero)
    as Hin by (vm_compute; apply list_elem_of_here).
  assert (valid (lit "Zero+")) as Hn by (by vm_compute).
  assert (valid (lit "Edited")) as Hd by (by vm_compute).
  assert (safe_ids (catalogData seeded_with_zero)) as Hsafe.
  { intros k Hk. vm_compute in Hk.
    apply elem_of_cons in Hk as [->|Hk]; [lia|].
    apply list_elem_of_singleton in Hk as ->. lia. }
  split_and!; [done..|].
  pose proof (C9_editing_id_zero_submits_add seeded_with_zero _
                (lit "Zero+") (lit "Edited") Hin eq_refl)
    as (Hmode & Hsub & Hadd).
  destruct (Hadd Hn Hd) as (Hcat & Hfresh & _).
  split_and!; [exact Hmode | exact Hsub | | exact (Hfresh Hsafe)].
  rewrite Hcat. by vm_compute.
Defined.

(** C10. When Delete succeeds while the detail view is open, the detail
    view is closed, whatever item it displays, the deleted one or another. *)
Theorem C10_delete_closes_details (s : state) (id : Z) :
  id ∈ ids (catalogData s) →
  detailsSection s ≠ lit "none" →
  detailsSection (deleteItem true id s) = lit "none"
  ∧ itemDetails (deleteItem true id s) = itemDetails s
  ∧ S (length (catalogData (deleteItem true id s))) = length (catalogData s).
Proof.
  intros Hin Hopen.
  destruct (findIndex id (catalogData s)) as [i|] eqn:Hi;
    [|by apply findIndex_None in Hi].
  assert (i < length (catalogData s))%nat as Hlt.
  { apply findIndex_Some in Hi as (it & Hit & _). by eapply lookup_lt_Some. }
  split_and!.
  - unfold deleteItem. simpl. rewrite Hi. unfold saveData.
    rewrite detailsSection_renderList. simpl.
    by rewrite bool_decide_eq_true_2.
  - unfold deleteItem. simpl. rewrite Hi. unfold saveData.
    rewrite detailsSection_renderList. simpl.
    rewrite bool_decide_eq_true_2 by done. simpl.
    by rewrite itemDetails_renderList.
  - rewrite catalogData_deleteItem, Hi.
    rewrite length_delete by (by apply lookup_lt_is_Some). lia.
Qed.

Lemma C10_witness :
  let viewing := viewItemDetails 2 gadget_added in
  itemDetails viewing = Some (Item 2 (lit "Gadget") (lit "Another")) ∧
  1 ∈ ids (catalogData viewing) ∧
  detailsSection viewing ≠ lit "none" ∧
  detailsSection (deleteItem true 1 viewing) = lit "none" ∧
  itemDetails (deleteItem true 1 viewing)
  = Some (Item 2 (lit "Gadget") (lit "Another")).
Proof.
  intros viewing.
  assert (1 ∈ ids (catalogData viewing)) as Hin
    by (vm_compute; apply list_elem_of_here).
  assert (detailsSection viewing ≠ lit "none") as Hopen by (by vm_compute).
  destruct (C10_delete_closes_details viewing 1 Hin Hopen)
    as (Hclosed & Hshown & _).
  split_and!; [by vm_compute | done | done | exact Hclosed |].
  rewrite Hshown. by vm_compute.
Defined.

(** C1. Ids are meant never to be reused after a deletion (the script's
    own comment has the id generation simulate AUTO_INCREMENT), but the
    script reuses one: in the catalog holding ids 1 and 2 the id 2 has been
    assigned; once its item is deleted a lookup of 2 finds nothing, the
    next id is 2 again, and the next Add stores a new item under it. *)
Theorem C1_deleted_id_is_reused :
  2 ∈ ids (catalogData gadget_added)
  ∧ find 2 (catalogData (deleteItem true 2 gadget_added)) = None
  ∧ newId (catalogData (deleteItem true 2 gadget_added)) = 2
  ∧ find 2 (catalogData
      (addItem (lit "Gizmo") (lit "A third") (deleteItem true 2 gadget_added)))
    = Some (Item 2 (lit "Gizmo") (lit "A third")).
Proof.
  split_and!; [|by vm_compute..].
  vm_compute. apply list_elem_of_further, list_elem_of_here.
Qed.

(** * Further properties of the script *)

(** ** Trimming, continued *)

Lemma trim_start_head s c :
  head (trim_start s) = Some c → is_white_space c = false.
Proof.
  induction s as [|x r IH]; simpl; [done|].
  destruct (is_white_space x) eqn:Hx; [done|].
  simpl. by intros [= <-].
Qed.

Lemma trim_start_id s :
  (∀ c, head s = Some c → is_white_space c = false) → trim_start s = s.
Proof.
  destruct s as [|x r]; simpl; [done|].
  intros H. by rewrite (H x eq_refl).
Qed.

Lemma trim_start_split s : ∃ p, s = p ++ trim_start s ∧ blank p.
Proof.
  induction s as [|x r (p & Hp & Hblank)]; simpl.
  - exists []. split; [done | constructor].
  - destruct (is_white_space x) eqn:Hx.
    + exists (x :: p). split; [by rewrite Hp at 1 | by constructor].
    + exists []. split; [done | constructor].
Qed.

Lemma trim_end_split s : ∃ q, s = trim_end s ++ q ∧ blank q.
Proof.
  unfold trim_end.
  destruct (trim_start_split (reverse s)) as (p & Hp & Hblank).
  exists (reverse p). split.
  - rewrite <- reverse_app, <- Hp. by rewrite reverse_involutive.
  - unfold blank. by apply Forall_reverse.
Qed.

Lemma trim_end_last s c :
  last (trim_end s) = Some c → is_white_space c = false.
Proof. unfold trim_end. rewrite last_reverse. apply trim_start_head. Qed.

Lemma trim_end_id s :
  (∀ c, last s = Some c → is_white_space c = false) → trim_end s = s.
Proof.
  intros H. unfold trim_end. rewrite trim_start_id.
  - apply reverse_involutive.
  - intros c. rewrite head_reverse. apply H.
Qed.

Lemma trim_end_head s c :
  head s = Some c → is_white_space c = false → head (trim_end s) = Some c.
Proof.
  intros Hhead Hc. destruct (trim_end_split s) as (q & Hs & Hq).
  destruct (trim_end s) as [|x t] eqn:Ht.
  - simpl in Hs. subst q. destruct s as [|y r]; [done|].
    simpl in Hhead. injection Hhead as ->.
    apply Forall_cons in Hq as [Hq _]. congruence.
  - rewrite Hs in Hhead. simpl in *. done.
Qed.

Lemma trim_trimmed s : trimmed (trim s).
Proof.
  unfold trim. split.
  - intros c Hc. destruct (head (trim_start s)) as [x|] eqn:Hx.
    + pose proof (trim_start_head _ _ Hx) as Hws.
      rewrite (trim_end_head _ _ Hx Hws) in Hc. congruence.
    + apply head_None in Hx. rewrite Hx in Hc. done.
  - apply trim_end_last.
Qed.

Lemma trimmed_trim s : trimmed s → trim s = s.
Proof.
  intros [Hh Hl]. unfold trim.
  rewrite (trim_start_id _ Hh). by apply trim_end_id.
Qed.

Lemma trim_idemp s : trim (trim s) = trim s.
Proof. apply trimmed_trim, trim_trimmed. Qed.

(** [trim] removes white space only, and only at the ends. *)
Lemma trim_split s : ∃ p q, s = p ++ trim s ++ q ∧ blank p ∧ blank q.
Proof.
  destruct (trim_start_split s) as (p & Hp & Hbp).
  destruct (trim_end_split (trim_start s)) as (q & Hq & Hbq).
  exists p, q. unfold trim. by rewrite <- Hq.
Qed.

(** ** The outcomes of each operation *)

Lemma validateInput_cases name description s :
  (valid name ∧ valid description
   ∧ validateInput name description s = (true, s))
  ∨ (blank name
     ∧ validateInput name description s
       = (false, alert (lit "Name field cannot be empty") s))
  ∨ (valid name ∧ blank description
     ∧ validateInput name description s
       = (false, alert (lit "Description field cannot be empty") s)).
Proof.
  destruct (decide (blank name)) as [Hn|Hn].
  { right. left. split; [done|]. by apply validateInput_blank_name. }
  apply valid_not_blank in Hn.
  destruct (decide (blank description)) as [Hd|Hd].
  { right. right. split_and!; [done..|].
    by apply validateInput_blank_description. }
  apply valid_not_blank in Hd.
  left. split_and!; [done..|]. by apply validateInput_valid.
Qed.

Lemma addItem_cases name description s :
  (valid name ∧ valid description
   ∧ addItem name description s
     = resetForm (renderList (set_catalogData
         (catalogData s
          ++ [Item (newId (catalogData s)) (trim name) (trim description)])
         s)))
  ∨ (blank name
     ∧ addItem name description s
       = alert (lit "Name field cannot be empty") s)
  ∨ (valid name ∧ blank description
     ∧ addItem name description s
       = alert (lit "Description field cannot be empty") s).
Proof.
  unfold addItem.
  destruct (validateInput_cases name description s)
    as [(Hn & Hd & ->)|[(Hn & ->)|(Hn & Hd & ->)]]; simpl.
  - left. done.
  - right. left. done.
  - right. right. done.
Qed.

Lemma updateItem_cases id name description s :
  (valid name ∧ valid description
   ∧ ∃ i, findIndex id (catalogData s) = Some i
     ∧ updateItem id name description s
       = resetForm (renderList (set_catalogData
           (<[i := Item id (trim name) (trim description)]> (catalogData s))
           s)))
  ∨ (valid name ∧ valid description
     ∧ findIndex id (catalogData s) = None
     ∧ updateItem id name description s = alert (lit "Item not found") s)
  ∨ (blank name
     ∧ updateItem id name description s
       = alert (lit "Name field cannot be empty") s)
  ∨ (valid name ∧ blank description
     ∧ updateItem id name description s
       = alert (lit "Description field cannot be empty") s).
Proof.
  unfold updateItem.
  destruct (validateInput_cases name description s)
    as [(Hn & Hd & ->)|[(Hn & ->)|(Hn & Hd & ->)]]; simpl.
  - destruct (findIndex id (catalogData s)) as [i|] eqn:Hi.
    + left. split_and!; [done..|]. by exists i.
    + right. left. done.
  - right. right. left. done.
  - right. right. right. done.
Qed.

Lemma deleteItem_cases answer id s :
  (answer = false ∧ deleteItem answer id s = s)
  ∨ (answer = true ∧ findIndex id (catalogData s) = None
     ∧ deleteItem answer id s = alert (lit "Item not found") s)
  ∨ (answer = true
     ∧ ∃ i, findIndex id (catalogData s) = Some i
       ∧ (deleteItem answer id s
          = renderList (set_catalogData (delete i (catalogData s)) s)
          ∨ deleteItem answer id s
            = closeDetails
                (renderList (set_catalogData (delete i (catalogData s)) s)))).
Proof.
  destruct answer; [|by left].
  right. unfold deleteItem. simpl.
  destruct (findIndex id (catalogData s)) as [i|] eqn:Hi; [|by left].
  right. split; [done|]. exists i. split; [done|].
  unfold saveData. case_bool_decide; auto.
Qed.

Lemma editItem_cases id s :
  (find id (catalogData s) = None
   ∧ editItem id s = alert (lit "Item not found") s)
  ∨ (∃ it, find id (catalogData s) = Some it
     ∧ editItem id s
       = set_cancelBtn (lit "inline-block")
           (set_submitBtn (lit "Update Item")
             (set_formTitle (lit "Edit Item")
               (set_itemDescriptionInput (item_description it)
                 (set_itemNameInput (item_name it)
                   (set_itemIdInput (Some id)
                     (set_editingItemId (Some id) s))))))).
Proof.
  unfold editItem. destruct (find id (catalogData s)) as [it|]; [|by left].
  right. by exists it.
Qed.

Lemma viewItemDetails_cases id s :
  (find id (catalogData s) = None
   ∧ viewItemDetails id s = alert (lit "Item not found") s)
  ∨ (∃ it, find id (catalogData s) = Some it
     ∧ viewItemDetails id s
       = set_detailsSection (lit "block") (set_itemDetails (Some it) s)).
Proof.
  unfold viewItemDetails.
  destruct (find id (catalogData s)) as [it|]; [|by left].
  right. by exists it.
Qed.

Lemma on_submit_cases s :
  on_submit s = addItem (itemNameInput s) (itemDescriptionInput s) s
  ∨ (∃ id, editingItemId s = Some id ∧ id ≠ 0
     ∧ on_submit s
       = updateItem id (itemNameInput s) (itemDescriptionInput s) s).
Proof.
  unfold on_submit. destruct (editingItemId s) as [id|]; [|by left].
  unfold truthy. destruct (Z.eqb_spec id 0); simpl; [by left|].
  right. by exists id.
Qed.

Lemma list_in_sync_renderList s : list_in_sync (renderList s).
Proof.
  unfold list_in_sync, renderList. case_bool_decide as H; simpl.
  - left. split; [|done]. by apply length_zero_iff_nil.
  - right. split; [|done]. intros Hnil. apply H. by rewrite Hnil.
Qed.

(** ** The list on the page *)

(** X1. Every event either leaves the catalog and the list on the page as
    they were, or leaves the list showing the catalog as it then is; so a
    list that shows the catalog keeps doing so, and a successful load
    makes it so. *)
Theorem X1_list_shows_catalog (e : event) (s : state) :
  ((catalogData (handle e s) = catalogData s
    ∧ itemsList (handle e s) = itemsList s)
   ∨ list_in_sync (handle e s))
  ∧ (list_in_sync s → list_in_sync (handle e s))
  ∧ (∀ items, list_in_sync (loadData (FetchedData items) s)).
Proof.
  assert ((catalogData (handle e s) = catalogData s
           ∧ itemsList (handle e s) = itemsList s)
          ∨ list_in_sync (handle e s)) as Hstep.
  { assert (∀ n d, (catalogData (addItem n d s) = catalogData s
                    ∧ itemsList (addItem n d s) = itemsList s)
                   ∨ list_in_sync (addItem n d s)) as Hadd.
    { intros n d.
      destruct (addItem_cases n d s)
        as [(_ & _ & ->)|[(_ & ->)|(_ & _ & ->)]]; [right|by left..].
      apply list_in_sync_renderList. }
    destruct e; simpl; try (by left).
    - destruct (on_submit_cases s) as [->|(id & _ & _ & ->)]; [apply Hadd|].
      destruct (updateItem_cases id (itemNameInput s)
                  (itemDescriptionInput s) s)
        as [(_ & _ & i & _ & ->)|[(_ & _ & _ & ->)|[(_ & ->)|(_ & _ & ->)]]];
        [right|by left..].
      apply list_in_sync_renderList.
    - destruct (viewItemDetails_cases id s) as [(_ & ->)|(it & _ & ->)];
        by left.
    - destruct (editItem_cases id s) as [(_ & ->)|(it & _ & ->)]; by left.
    - destruct (deleteItem_cases answer id s)
        as [(_ & ->)|[(_ & _ & ->)|(_ & i & _ & [-> | ->])]];
        [by left..| |]; right; apply list_in_sync_renderList. }
  split_and!; [done| |].
  - intros Hs. destruct Hstep as [[Hc Hl]|H]; [|done].
    unfold list_in_sync. by rewrite Hc, Hl.
  - intros items. apply list_in_sync_renderList.
Qed.

Lemma X1_witness :
  list_in_sync gadget_added
  ∧ list_in_sync (handle (Delete 1 true) gadget_added).
Proof.
  assert (list_in_sync gadget_added) as H by (right; by vm_compute).
  split; [exact H|].
  exact (proj1 (proj2 (X1_list_shows_catalog (Delete 1 true) gadget_added)) H).
Defined.

(** ** The form *)

Lemma form_tracks_mode_same s s' :
  editingItemId s' = editingItemId s → itemIdInput s' = itemIdInput s →
  formTitle s' = formTitle s → submitBtn s' = submitBtn s →
  cancelBtn s' = cancelBtn s →
  form_tracks_mode s → form_tracks_mode s'.
Proof. unfold form_tracks_mode. by intros -> -> -> -> ->. Qed.

Lemma form_tracks_mode_resetForm s : form_tracks_mode (resetForm s).
Proof. unfold form_tracks_mode. simpl. done. Qed.

Lemma form_tracks_mode_alert msg s :
  form_tracks_mode s → form_tracks_mode (alert msg s).
Proof. by apply form_tracks_mode_same. Qed.

Lemma form_tracks_mode_renderList s :
  form_tracks_mode s → form_tracks_mode (renderList s).
Proof.
  apply form_tracks_mode_same; unfold renderList; by case_bool_decide.
Qed.

Lemma form_tracks_mode_addItem name description s :
  form_tracks_mode s → form_tracks_mode (addItem name description s).
Proof.
  intros Hs.
  destruct (addItem_cases name description s)
    as [(_ & _ & ->)|[(_ & ->)|(_ & _ & ->)]].
  - apply form_tracks_mode_resetForm.
  - by apply form_tracks_mode_alert.
  - by apply form_tracks_mode_alert.
Qed.

Lemma form_tracks_mode_updateItem id name description s :
  form_tracks_mode s → form_tracks_mode (updateItem id name description s).
Proof.
  intros Hs.
  destruct (updateItem_cases id name description s)
    as [(_ & _ & i & _ & ->)|[(_ & _ & _ & ->)|[(_ & ->)|(_ & _ & ->)]]].
  - apply form_tracks_mode_resetForm.
  - by apply form_tracks_mode_alert.
  - by apply form_tracks_mode_alert.
  - by apply form_tracks_mode_alert.
Qed.

Lemma form_tracks_mode_deleteItem answer id s :
  form_tracks_mode s → form_tracks_mode (deleteItem answer id s).
Proof.
  intros Hs.
  destruct (deleteItem_cases answer id s)
    as [(_ & ->)|[(_ & _ & ->)|(_ & i & _ & [-> | ->])]].
  - done.
  - by apply form_tracks_mode_alert.
  - apply form_tracks_mode_renderList.
    by apply (form_tracks_mode_same s).
  - apply (form_tracks_mode_same
             (renderList (set_catalogData (delete i (catalogData s)) s)));
      [done..|].
    apply form_tracks_mode_renderList. by apply (form_tracks_mode_same s).
Qed.

(** X2. The title, the submit label, the cancel button and the hidden id
    field always agree with the editing mode: every event keeps the
    agreement, Cancel establishes it, and so does Edit of a stored id, which
    also enters editing mode for that id. *)
Theorem X2_form_tracks_mode (s : state) :
  (∀ e, form_tracks_mode s → form_tracks_mode (handle e s))
  ∧ form_tracks_mode (handle Cancel s)
  ∧ (∀ id, id ∈ ids (catalogData s) →
       form_tracks_mode (handle (Edit id) s)
       ∧ editingItemId (handle (Edit id) s) = Some id).
Proof.
  split_and!.
  - intros e Hs. destruct e; simpl.
    + destruct (on_submit_cases s) as [->|(id & _ & _ & ->)].
      * by apply form_tracks_mode_addItem.
      * by apply form_tracks_mode_updateItem.
    + apply form_tracks_mode_resetForm.
    + by apply (form_tracks_mode_same s).
    + destruct (viewItemDetails_cases id s) as [(_ & ->)|(it & _ & ->)].
      * by apply form_tracks_mode_alert.
      * by apply (form_tracks_mode_same s).
    + destruct (editItem_cases id s) as [(_ & ->)|(it & _ & ->)].
      * by apply form_tracks_mode_alert.
      * unfold form_tracks_mode. simpl. done.
    + by apply form_tracks_mode_deleteItem.
    + by apply (form_tracks_mode_same s).
    + by apply (form_tracks_mode_same s).
  - apply form_tracks_mode_resetForm.
  - intros id Hin. simpl.
    destruct (editItem_cases id s) as [(Hnone & _)|(it & _ & ->)].
    + by apply find_None in Hnone.
    + unfold form_tracks_mode. simpl. done.
Qed.

Lemma X2_witness :
  form_tracks_mode gadget_added
  ∧ form_tracks_mode (handle Submit gadget_added)
  ∧ 2 ∈ ids (catalogData gadget_added)
  ∧ form_tracks_mode (handle (Edit 2) gadget_added)
  ∧ editingItemId (handle (Edit 2) gadget_added) = Some 2.
Proof.
  assert (form_tracks_mode gadget_added) as H by (by vm_compute).
  assert (2 ∈ ids (catalogData gadget_added)) as Hin.
  { vm_compute. apply list_elem_of_further, list_elem_of_here. }
  split; [exact H|]. split.
  { exact (proj1 (X2_form_tracks_mode gadget_added) Submit H). }
  split; [exact Hin|].
  exact (proj2 (proj2 (X2_form_tracks_mode gadget_added)) 2 Hin).
Defined.

(** ** Dialogs *)

(** X3. An event shows at most one alert, and the only alerts are the
    script's three messages; earlier alerts are never touched. *)
Theorem X3_at_most_one_alert (e : event) (s : state) :
  alerts (handle e s) = alerts s
  ∨ ∃ msg, msg ∈ messages ∧ alerts (handle e s) = alerts s ++ [msg].
Proof.
  assert (lit "Name field cannot be empty" ∈ messages) as H1
    by apply list_elem_of_here.
  assert (lit "Description field cannot be empty" ∈ messages) as H2
    by apply list_elem_of_further, list_elem_of_here.
  assert (lit "Item not found" ∈ messages) as H3
    by apply list_elem_of_further, list_elem_of_further, list_elem_of_here.
  assert (∀ x, alerts (renderList x) = alerts x) as Hrender.
  { intros x. unfold renderList. by case_bool_decide. }
  assert (∀ n d, alerts (addItem n d s) = alerts s
                 ∨ ∃ msg, msg ∈ messages
                          ∧ alerts (addItem n d s) = alerts s ++ [msg])
    as Hadd.
  { intros n d.
    destruct (addItem_cases n d s)
      as [(_ & _ & ->)|[(_ & ->)|(_ & _ & ->)]].
    - left. simpl. by rewrite Hrender.
    - right. eexists. split; [|reflexivity]. assumption.
    - right. eexists. split; [|reflexivity]. assumption. }
  destruct e; simpl; try (by left).
  - destruct (on_submit_cases s) as [->|(id & _ & _ & ->)]; [apply Hadd|].
    destruct (updateItem_cases id (itemNameInput s) (itemDescriptionInput s) s)
      as [(_ & _ & i & _ & ->)|[(_ & _ & _ & ->)|[(_ & ->)|(_ & _ & ->)]]].
    + left. simpl. by rewrite Hrender.
    + right. eexists. split; [|reflexivity]. assumption.
    + right. eexists. split; [|reflexivity]. assumption.
    + right. eexists. split; [|reflexivity]. assumption.
  - destruct (viewItemDetails_cases id s) as [(_ & ->)|(it & _ & ->)].
    + right. eexists. split; [|reflexivity]. assumption.
    + by left.
  - destruct (editItem_cases id s) as [(_ & ->)|(it & _ & ->)].
    + right. eexists. split; [|reflexivity]. assumption.
    + by left.
  - destruct (deleteItem_cases answer id s)
      as [(_ & ->)|[(_ & _ & ->)|(_ & i & _ & [-> | ->])]].
    + by left.
    + right. eexists. split; [|reflexivity]. assumption.
    + left. by rewrite Hrender.
    + left. simpl. by rewrite Hrender.
Qed.

(** ** Validation *)

(** X4. [validateInput] accepts exactly when the name and the description
    each hold a character that is not white space; it then leaves the state
    alone. When it rejects it shows one alert, for the name if the name is
    blank and for the description otherwise. *)
Theorem X4_validateInput_accepts_iff
    (name description : jsstring) (s : state) :
  (fst (validateInput name description s) = true
   ↔ Exists (λ c, is_white_space c = false) name
     ∧ Exists (λ c, is_white_space c = false) description)
  ∧ (fst (validateInput name description s) = true
     → snd (validateInput name description s) = s)
  ∧ (fst (validateInput name description s) = false
     → snd (validateInput name description s)
       = alert (if decide (blank name)
                then lit "Name field cannot be empty"
                else lit "Description field cannot be empty") s).
Proof.
  assert (∀ t, valid t ↔ Exists (λ c, is_white_space c = false) t) as Hex.
  { intros t. rewrite valid_not_blank. unfold blank. split.
    - intros H%not_Forall_Exists; [|apply _].
      eapply Exists_impl; [exact H|]. intros c Hc. simpl in Hc.
      by destruct (is_white_space c).
    - intros H Hall. apply Exists_exists in H as (c & Hin & Hc).
      rewrite Forall_forall in Hall. specialize (Hall c Hin). congruence. }
  rewrite <- !Hex.
  destruct (validateInput_cases name description s)
    as [(Hn & Hd & ->)|[(Hn & ->)|(Hn & Hd & ->)]]; simpl.
  - split_and!; [done..|]. done.
  - split_and!; [|done|].
    + split; [done|]. intros [Hv _]. by apply valid_not_blank in Hv.
    + intros _. by rewrite decide_True.
  - split_and!; [|done|].
    + split; [done|]. intros [_ Hv]. by apply valid_not_blank in Hv.
    + intros _. apply valid_not_blank in Hn. by rewrite decide_False.
Qed.

Lemma X4_witness :
  fst (validateInput (lit " a ") (lit "b") blank_page) = true
  ∧ snd (validateInput (lit " a ") (lit "b") blank_page) = blank_page
  ∧ fst (validateInput (lit "a") (lit "  ") blank_page) = false
  ∧ snd (validateInput (lit "a") (lit "  ") blank_page)
    = alert (lit "Description field cannot be empty") blank_page.
Proof.
  assert (fst (validateInput (lit " a ") (lit "b") blank_page) = true) as H1
    by (by vm_compute).
  assert (fst (validateInput (lit "a") (lit "  ") blank_page) = false) as H2
    by (by vm_compute).
  split_and!; [done| |done|].
  - exact (proj1 (proj2 (X4_validateInput_accepts_iff (lit " a ") (lit "b")
                           blank_page)) H1).
  - rewrite (proj2 (proj2 (X4_validateInput_accepts_iff (lit "a") (lit "  ")
                             blank_page)) H2).
    by vm_compute.
Defined.

(** ** What is stored *)

Lemma well_formed_built k name description :
  valid name → valid description →
  well_formed (Item k (trim name) (trim description)).
Proof.
  intros Hn Hd. unfold well_formed. simpl.
  split_and!; [done | apply trim_trimmed | done | apply trim_trimmed].
Qed.

Lemma well_formed_addItem name description s :
  Forall well_formed (catalogData s) →
  Forall well_formed (catalogData (addItem name description s)).
Proof.
  intros Hs. rewrite catalogData_addItem. case_decide as Hv; [|done].
  destruct Hv. apply Forall_app. split; [done|].
  apply Forall_singleton. by apply well_formed_built.
Qed.

Lemma well_formed_updateItem id name description s :
  Forall well_formed (catalogData s) →
  Forall well_formed (catalogData (updateItem id name description s)).
Proof.
  intros Hs. rewrite catalogData_updateItem. case_decide as Hv; [|done].
  destruct Hv. destruct (findIndex id (catalogData s)); [|done].
  apply Forall_insert; [done|]. by apply well_formed_built.
Qed.

Lemma well_formed_deleteItem answer id s :
  Forall well_formed (catalogData s) →
  Forall well_formed (catalogData (deleteItem answer id s)).
Proof.
  intros Hs. rewrite catalogData_deleteItem.
  destruct (findIndex id (catalogData s)); [|done].
  destruct answer; [|done]. by apply Forall_delete.
Qed.

Lemma well_formed_handle e s :
  Forall well_formed (catalogData s) →
  Forall well_formed (catalogData (handle e s)).
Proof.
  intros Hs. destruct e; simpl; try done.
  - destruct (on_submit_cases s) as [->|(id & _ & _ & ->)].
    + by apply well_formed_addItem.
    + by apply well_formed_updateItem.
  - by rewrite catalogData_viewItemDetails.
  - by rewrite catalogData_editItem.
  - by apply well_formed_deleteItem.
Qed.

(** X5. Names and descriptions in the catalog are never empty and never
    start or end with white space: if this holds of the loaded items, it
    holds after every sequence of events; every item Add or Update writes
    has the property. *)
Theorem X5_stored_items_well_formed (s : state) (es : list event) :
  Forall well_formed (catalogData s) →
  Forall well_formed (catalogData (run es s)).
Proof.
  intros Hs. induction es as [|e es IH] using rev_ind; [done|].
  rewrite run_snoc. by apply well_formed_handle.
Qed.

Lemma X5_witness :
  Forall well_formed (catalogData blank_page)
  ∧ Forall well_formed (catalogData
      (run [TypeName (lit "  Widget "); TypeDescription (lit " A thing ");
            Submit; Edit 1; TypeName (lit " Widget 2"); Submit]
         blank_page)).
Proof.
  assert (Forall well_formed (catalogData blank_page)) as H by constructor.
  split; [exact H|].
  exact (X5_stored_items_well_formed blank_page _ H).
Defined.

(** X6. With valid input, the name and the description Add stores are the
    inputs with white space removed at the two ends and nowhere else:
    each input is the stored text between two runs of white space. *)
Theorem X6_add_strips_only_the_ends
    (s : state) (name description : jsstring) :
  valid name → valid description →
  ∃ it p q p' q',
    catalogData (addItem name description s) = catalogData s ++ [it]
    ∧ well_formed it
    ∧ name = p ++ item_name it ++ q ∧ blank p ∧ blank q
    ∧ description = p' ++ item_description it ++ q' ∧ blank p' ∧ blank q'.
Proof.
  intros Hn Hd.
  destruct (trim_split name) as (p & q & Hname & Hp & Hq).
  destruct (trim_split description) as (p' & q' & Hdesc & Hp' & Hq').
  exists (Item (newId (catalogData s)) (trim name) (trim description)),
    p, q, p', q'.
  split_and!; try done.
  - by apply catalogData_addItem_valid.
  - by apply well_formed_built.
Qed.

Lemma X6_witness :
  valid (lit "  Big Widget ") ∧ valid (lit "A thing") ∧
  ∃ it p q p' q',
    catalogData (addItem (lit "  Big Widget ") (lit "A thing") blank_page)
    = catalogData blank_page ++ [it]
    ∧ well_formed it
    ∧ lit "  Big Widget " = p ++ item_name it ++ q ∧ blank p ∧ blank q
    ∧ lit "A thing" = p' ++ item_description it ++ q' ∧ blank p' ∧ blank q'.
Proof.
  assert (valid (lit "  Big Widget ")) as Hn by (by vm_compute).
  assert (valid (lit "A thing")) as Hd by (by vm_compute).
  split_and!; [done..|].
  exact (X6_add_strips_only_the_ends blank_page _ _ Hn Hd).
Defined.

(** ** Ids of successive Adds *)

Lemma newId_snoc c name description :
  ids_within (2 ^ 53 - 1) c →
  newId (c ++ [Item (newId c) name description]) = newId c + 1.
Proof.
  intros Hc. destruct c as [|it rest]; [done|].
  assert (safe_ids (it :: rest)) as Hsafe
    by (apply (ids_within_mono (2 ^ 53 - 1)); [lia|done]).
  destruct (newId_max (it :: rest) ltac:(done) Hsafe) as [Hin _].
  pose proof (Hc _ Hin) as Hmax.
  rewrite (newId_exact _ _ Hsafe) in *.
  set (m := Math_max (item_id it) (item_id <$> rest)) in *.
  assert (safe_ids ((it :: rest) ++ [Item (m + 1) name description]))
    as Hsafe'.
  { intros k. rewrite ids_snoc.
    intros [Hk| ->%list_elem_of_singleton]%elem_of_app.
    - by apply Hsafe.
    - cbn [item_id]. lia. }
  rewrite <- app_comm_cons in *. rewrite (newId_exact _ _ Hsafe').
  unfold Math_max. rewrite fmap_app, foldl_app.
  cbn [fmap list_fmap foldl item_id].
  fold (Math_max (item_id it) (item_id <$> rest)). fold m. lia.
Qed.

(** X7. While the stored ids are at least [- 2 ^ 53] and below
    [2 ^ 53 - 1], successive valid Adds assign consecutive ids: after a
    valid Add the next id is the id just assigned plus 1. *)
Theorem X7_consecutive_ids
    (s : state) (name description name' description' : jsstring) :
  valid name → valid description → valid name' → valid description' →
  ids_within (2 ^ 53 - 1) (catalogData s) →
  let s1 := addItem name description s in
  let s2 := addItem name' description' s1 in
  newId (catalogData s1) = newId (catalogData s) + 1
  ∧ ids (catalogData s2)
    = ids (catalogData s) ++ [newId (catalogData s);
                              newId (catalogData s) + 1].
Proof.
  intros Hn Hd Hn' Hd' Hw s1 s2.
  assert (newId (catalogData s1) = newId (catalogData s) + 1) as Hnext.
  { subst s1. rewrite (catalogData_addItem_valid _ _ _ Hn Hd).
    by apply newId_snoc. }
  split; [done|]. subst s2.
  rewrite (catalogData_addItem_valid _ _ _ Hn' Hd'), ids_snoc. simpl.
  rewrite Hnext. subst s1.
  rewrite (catalogData_addItem_valid _ _ _ Hn Hd), ids_snoc. simpl.
  by rewrite <- app_assoc.
Qed.

Lemma X7_witness :
  valid (lit "Gizmo") ∧ valid (lit "A third") ∧
  valid (lit "Doohickey") ∧ valid (lit "A fourth") ∧
  ids_within (2 ^ 53 - 1) (catalogData gadget_added) ∧
  let s1 := addItem (lit "Gizmo") (lit "A third") gadget_added in
  let s2 := addItem (lit "Doohickey") (lit "A fourth") s1 in
  newId (catalogData s1) = newId (catalogData gadget_added) + 1
  ∧ ids (catalogData s2)
    = ids (catalogData gadget_added)
      ++ [newId (catalogData gadget_added);
          newId (catalogData gadget_added) + 1].
Proof.
  assert (valid (lit "Gizmo")) as H1 by (by vm_compute).
  assert (valid (lit "A third")) as H2 by (by vm_compute).
  assert (valid (lit "Doohickey")) as H3 by (by vm_compute).
  assert (valid (lit "A fourth")) as H4 by (by vm_compute).
  assert (ids_within (2 ^ 53 - 1) (catalogData gadget_added)) as Hw.
  { intros k Hk. vm_compute in Hk.
    apply elem_of_cons in Hk as [->|Hk]; [lia|].
    apply list_elem_of_singleton in Hk as ->. lia. }
  split_and!; [done..|].
  exact (X7_consecutive_ids gadget_added _ _ _ _ H1 H2 H3 H4 Hw).
Defined.

(** ** Editing an item through the form *)

Lemma findIndex_replace id c i name description :
  findIndex id c = Some i →
  findIndex id (<[i := Item id name description]> c) = Some i.
Proof.
  intros (it & Hi & Hid & Hfirst)%findIndex_Some.
  apply findIndex_Some. exists (Item id name description).
  split_and!; [|done|].
  - apply list_lookup_insert_eq. by eapply lookup_lt_Some.
  - intros j it' Hj Hlt. rewrite list_lookup_insert_ne in Hj by lia.
    by apply (Hfirst j).
Qed.

Lemma find_replace id c i name description :
  findIndex id c = Some i →
  find id (<[i := Item id name description]> c)
  = Some (Item id name description).
Proof.
  intros Hi. apply find_Some. exists i. split.
  - by apply findIndex_replace.
  - apply findIndex_Some in Hi as (it & Hi & _).
    apply list_lookup_insert_eq. by eapply lookup_lt_Some.
Qed.

Lemma find_present id c : id ∈ ids c → ∃ it, find id c = Some it.
Proof.
  intros Hin. destruct (find id c) as [it|] eqn:Hf; [by exists it|].
  by apply find_None in Hf.
Qed.

Lemma findIndex_present id c : id ∈ ids c → ∃ i, findIndex id c = Some i.
Proof.
  intros Hin. destruct (findIndex id c) as [i|] eqn:Hf; [by exists i|].
  by apply findIndex_None in Hf.
Qed.

Lemma truthy_nonzero id : id ≠ 0 → truthy id = true.
Proof. intros H. unfold truthy. by destruct (Z.eqb_spec id 0). Qed.

(** Submitting right after Edit and typing, for an id that is not 0. *)
Lemma submit_after_edit id name description s :
  id ≠ 0 → id ∈ ids (catalogData s) →
  run [Edit id; TypeName name; TypeDescription description; Submit] s
  = updateItem id name description
      (set_itemDescriptionInput description
         (set_itemNameInput name (editItem id s))).
Proof.
  intros Hid Hin. unfold run. simpl. unfold on_submit. simpl.
  destruct (editItem_cases id s) as [(Hnone & _)|(it & _ & ->)].
  - by apply find_None in Hnone.
  - simpl. by rewrite (truthy_nonzero _ Hid).
Qed.

(** X8. For a stored id other than 0, Edit, typing valid values and Submit
    rewrite the item's slot with the trimmed values: a lookup of the id then
    gives the new item, the stored ids and their order are as before, and
    the form is back in creating mode with empty fields. *)
Theorem X8_edit_type_submit
    (s : state) (id : Z) (name description : jsstring) :
  id ≠ 0 → id ∈ ids (catalogData s) → valid name → valid description →
  let s' :=
    run [Edit id; TypeName name; TypeDescription description; Submit] s in
  ∃ i, findIndex id (catalogData s) = Some i
    ∧ catalogData s'
      = <[i := Item id (trim name) (trim description)]> (catalogData s)
    ∧ find id (catalogData s') = Some (Item id (trim name) (trim description))
    ∧ ids (catalogData s') = ids (catalogData s)
    ∧ editingItemId s' = None
    ∧ itemNameInput s' = [] ∧ itemDescriptionInput s' = [].
Proof.
  intros Hid Hin Hn Hd s'.
  destruct (findIndex_present _ _ Hin) as [i Hi]. exists i.
  assert (catalogData
            (set_itemDescriptionInput description
               (set_itemNameInput name (editItem id s))) = catalogData s)
    as Hcat by (simpl; apply catalogData_editItem).
  assert (s' = resetForm (saveData (set_catalogData
            (<[i := Item id (trim name) (trim description)]> (catalogData s))
            (set_itemDescriptionInput description
               (set_itemNameInput name (editItem id s)))))) as ->.
  { subst s'. rewrite (submit_after_edit _ _ _ _ Hid Hin).
    rewrite (updateItem_valid _ _ _ _ Hn Hd), Hcat, Hi. done. }
  unfold saveData. simpl. rewrite catalogData_renderList. simpl.
  split_and!; try done.
  - by apply find_replace.
  - by apply ids_replace.
Qed.

Lemma X8_witness :
  2 ∈ ids (catalogData gadget_added) ∧
  valid (lit " Gadget 2 ") ∧ valid (lit "Renamed") ∧
  let s' :=
    run [Edit 2; TypeName (lit " Gadget 2 "); TypeDescription (lit "Renamed");
         Submit] gadget_added in
  ∃ i, findIndex 2 (catalogData gadget_added) = Some i
    ∧ catalogData s'
      = <[i := Item 2 (trim (lit " Gadget 2 ")) (trim (lit "Renamed"))]>
          (catalogData gadget_added)
    ∧ find 2 (catalogData s')
      = Some (Item 2 (trim (lit " Gadget 2 ")) (trim (lit "Renamed")))
    ∧ ids (catalogData s') = ids (catalogData gadget_added)
    ∧ editingItemId s' = None
    ∧ itemNameInput s' = [] ∧ itemDescriptionInput s' = [].
Proof.
  assert (2 ∈ ids (catalogData gadget_added)) as Hin.
  { vm_compute. apply list_elem_of_further, list_elem_of_here. }
  assert (valid (lit " Gadget 2 ")) as Hn by (by vm_compute).
  assert (valid (lit "Renamed")) as Hd by (by vm_compute).
  split_and!; [done..|].
  by apply (X8_edit_type_submit gadget_added 2 _ _).
Defined.

Lemma well_formed_valid it :
  well_formed it →
  valid (item_name it) ∧ trim (item_name it) = item_name it
  ∧ valid (item_description it)
  ∧ trim (item_description it) = item_description it.
Proof.
  intros (Hn & Htn & Hd & Htd). unfold valid.
  rewrite (trimmed_trim _ Htn), (trimmed_trim _ Htd). done.
Qed.

(** X9. When the stored items are well formed, Edit of a stored id other
    than 0 followed at once by Submit leaves the catalog as it was, shows
    no alert, and returns the form to creating mode. *)
Theorem X9_edit_submit_untouched (s : state) (id : Z) :
  id ≠ 0 → id ∈ ids (catalogData s) →
  Forall well_formed (catalogData s) →
  catalogData (run [Edit id; Submit] s) = catalogData s
  ∧ alerts (run [Edit id; Submit] s) = alerts s
  ∧ editingItemId (run [Edit id; Submit] s) = None.
Proof.
  intros Hid Hin Hwf.
  destruct (find_present _ _ Hin) as [it Hfind].
  pose proof Hfind as (i & Hi & Hit)%find_Some.
  pose proof Hfind as [Hitid _]%find_id.
  assert (well_formed it) as Hit_wf.
  { rewrite Forall_forall in Hwf. apply Hwf.
    by eapply list_elem_of_lookup_2. }
  destruct (well_formed_valid _ Hit_wf) as (Hn & Htn & Hd & Htd).
  assert (run [Edit id; Submit] s
          = resetForm (saveData (set_catalogData (catalogData s)
              (editItem id s)))) as ->.
  { unfold run. simpl. unfold on_submit, editItem. rewrite Hfind. simpl.
    rewrite (truthy_nonzero _ Hid).
    rewrite (updateItem_valid _ _ _ _ Hn Hd). simpl. rewrite Hi.
    rewrite Htn, Htd. do 3 f_equal.
    apply list_insert_id. rewrite Hit. f_equal.
    destruct it. simpl in *. by subst. }
  unfold saveData, editItem. rewrite Hfind. simpl.
  unfold renderList. by case_bool_decide.
Qed.

Lemma X9_witness :
  2 ∈ ids (catalogData gadget_added) ∧
  Forall well_formed (catalogData gadget_added) ∧
  catalogData (run [Edit 2; Submit] gadget_added) = catalogData gadget_added
  ∧ alerts (run [Edit 2; Submit] gadget_added) = alerts gadget_added
  ∧ editingItemId (run [Edit 2; Submit] gadget_added) = None.
Proof.
  assert (2 ∈ ids (catalogData gadget_added)) as Hin.
  { vm_compute. apply list_elem_of_further, list_elem_of_here. }
  assert (Forall well_formed (catalogData gadget_added)) as Hwf.
  { unfold gadget_added, widget_added.
    apply well_formed_addItem, well_formed_addItem. constructor. }
  split_and!; [done..| | |];
    by apply (X9_edit_submit_untouched gadget_added 2).
Defined.

(** X10. Cancel undoes Edit: for a stored id, Edit, any typing and Cancel
    leave the state that Cancel alone leaves, so the catalog is as before
    and the form is in creating mode with empty fields. *)
Theorem X10_cancel_undoes_edit
    (s : state) (id : Z) (name description : jsstring) :
  id ∈ ids (catalogData s) →
  run [Edit id; Cancel] s = handle Cancel s
  ∧ run [Edit id; TypeName name; TypeDescription description; Cancel] s
    = handle Cancel s
  ∧ catalogData (handle Cancel s) = catalogData s
  ∧ editingItemId (handle Cancel s) = None
  ∧ itemNameInput (handle Cancel s) = []
  ∧ itemDescriptionInput (handle Cancel s) = [].
Proof.
  intros Hin. unfold run. simpl.
  destruct (editItem_cases id s) as [(Hnone & _)|(it & _ & ->)].
  - by apply find_None in Hnone.
  - done.
Qed.

Lemma X10_witness :
  2 ∈ ids (catalogData gadget_added) ∧
  run [Edit 2; TypeName (lit "x"); TypeDescription []; Cancel] gadget_added
  = handle Cancel gadget_added.
Proof.
  assert (2 ∈ ids (catalogData gadget_added)) as Hin.
  { vm_compute. apply list_elem_of_further, list_elem_of_here. }
  split; [done|].
  exact (proj1 (proj2 (X10_cancel_undoes_edit gadget_added 2 (lit "x") []
                         Hin))).
Defined.

(** X11. A submit whose name or description field is blank does nothing
    but show the alert for that field, in creating and in editing mode
    alike: the catalog, the editing mode and the form fields stay. *)
Theorem X11_rejected_submit (s : state) :
  (blank (itemNameInput s) →
     handle Submit s = alert (lit "Name field cannot be empty") s)
  ∧ (valid (itemNameInput s) → blank (itemDescriptionInput s) →
     handle Submit s = alert (lit "Description field cannot be empty") s).
Proof.
  split.
  - intros Hn. simpl. unfold on_submit, addItem, updateItem.
    rewrite (validateInput_blank_name _ _ _ Hn).
    destruct (editingItemId s) as [id|]; [|done]. by destruct (truthy id).
  - intros Hn Hd. simpl. unfold on_submit, addItem, updateItem.
    rewrite (validateInput_blank_description _ _ _ Hn Hd).
    destruct (editingItemId s) as [id|]; [|done]. by destruct (truthy id).
Qed.

Lemma X11_witness :
  let editing := run [Edit 2; TypeName (lit "  ")] gadget_added in
  let typed := run [Edit 2; TypeDescription (lit " ")] gadget_added in
  blank (itemNameInput editing)
  ∧ handle Submit editing = alert (lit "Name field cannot be empty") editing
  ∧ valid (itemNameInput typed) ∧ blank (itemDescriptionInput typed)
  ∧ handle Submit typed
    = alert (lit "Description field cannot be empty") typed.
Proof.
  intros editing typed.
  assert (blank (itemNameInput editing)) as H1
    by (vm_compute; repeat constructor).
  assert (valid (itemNameInput typed)) as H2 by (by vm_compute).
  assert (blank (itemDescriptionInput typed)) as H3
    by (vm_compute; repeat constructor).
  split_and!; [done| |done|done|].
  - exact (proj1 (X11_rejected_submit editing) H1).
  - exact (proj2 (X11_rejected_submit typed) H2 H3).
Defined.

(** ** Deleting *)

Lemma findIndex_cons id x c :
  findIndex id (x :: c)
  = if decide (item_id x = id) then Some 0%nat else S <$> findIndex id c.
Proof.
  unfold findIndex. simpl. case_decide; [done|].
  by destruct (list_find _ c) as [[i it]|].
Qed.

Lemma find_cons id x c :
  find id (x :: c) = if decide (item_id x = id) then Some x else find id c.
Proof.
  unfold find. simpl. case_decide; [done|].
  by destruct (list_find _ c) as [[i it]|].
Qed.

Lemma filter_absent id c :
  id ∉ ids c → filter (λ it, item_id it ≠ id) c = c.
Proof.
  induction c as [|x c IH]; [done|]. unfold ids. rewrite fmap_cons.
  intros [Hx Hc]%not_elem_of_cons.
  rewrite filter_cons_True by done. f_equal. by apply IH.
Qed.

Lemma delete_found_filter id c :
  ∀ i, NoDup (ids c) → findIndex id c = Some i →
       delete i c = filter (λ it, item_id it ≠ id) c.
Proof.
  induction c as [|x c IH]; intros i Hnd Hi; [done|].
  unfold ids in Hnd. rewrite fmap_cons in Hnd.
  apply NoDup_cons in Hnd as [Hx Hnd].
  rewrite findIndex_cons in Hi. case_decide as Hid.
  - injection Hi as <-. simpl.
    rewrite filter_cons_False by (intros H; by apply H).
    symmetry. apply filter_absent. by rewrite <- Hid.
  - destruct (findIndex id c) as [j|] eqn:Hj; [|done].
    injection Hi as <-. simpl.
    rewrite filter_cons_True by done. f_equal. by apply IH.
Qed.

(** X12. With distinct ids, a confirmed Delete leaves exactly the items
    whose id is not the given one, in their order; when no item has the id
    it only alerts 'Item not found'. *)
Theorem X12_delete_is_filter (s : state) (id : Z) :
  distinct_ids (catalogData s) →
  catalogData (deleteItem true id s)
  = filter (λ it, item_id it ≠ id) (catalogData s)
  ∧ (id ∉ ids (catalogData s) →
     deleteItem true id s = alert (lit "Item not found") s).
Proof.
  intros Hs%distinct_ids_NoDup. split.
  - rewrite catalogData_deleteItem.
    destruct (findIndex id (catalogData s)) as [i|] eqn:Hi.
    + by apply delete_found_filter.
    + symmetry. by apply filter_absent, findIndex_None.
  - intros Habsent%findIndex_None. unfold deleteItem. simpl.
    by rewrite Habsent.
Qed.

Lemma X12_witness :
  distinct_ids (catalogData gadget_added)
  ∧ catalogData (deleteItem true 1 gadget_added)
    = filter (λ it, item_id it ≠ 1) (catalogData gadget_added)
  ∧ (9 ∉ ids (catalogData gadget_added))
  ∧ deleteItem true 9 gadget_added
    = alert (lit "Item not found") gadget_added.
Proof.
  assert (distinct_ids (catalogData gadget_added)) as H.
  { apply distinct_ids_NoDup. vm_compute.
    apply NoDup_cons. split; [|apply NoDup_singleton].
    by intros ?%list_elem_of_singleton. }
  assert (9 ∉ ids (catalogData gadget_added)) as Habsent.
  { vm_compute. intros [?|[?|?%elem_of_nil]%elem_of_cons]%elem_of_cons; done. }
  split_and!; [done| |done|].
  - exact (proj1 (X12_delete_is_filter gadget_added 1 H)).
  - exact (proj2 (X12_delete_is_filter gadget_added 9 H) Habsent).
Defined.

Lemma deleteItem_form answer id s :
  editingItemId (deleteItem answer id s) = editingItemId s
  ∧ itemNameInput (deleteItem answer id s) = itemNameInput s
  ∧ itemDescriptionInput (deleteItem answer id s) = itemDescriptionInput s.
Proof.
  destruct (deleteItem_cases answer id s)
    as [(_ & ->)|[(_ & _ & ->)|(_ & i & _ & [-> | ->])]]; try done;
    unfold renderList; by case_bool_decide.
Qed.

Lemma deleted_id_absent id s :
  distinct_ids (catalogData s) →
  id ∉ ids (catalogData (deleteItem true id s)).
Proof.
  intros Hs. rewrite catalogData_deleteItem.
  destruct (findIndex id (catalogData s)) as [i|] eqn:Hi.
  - by apply ids_delete_found.
  - by apply findIndex_None.
Qed.

(** X13. Delete does not leave editing mode. With distinct ids, when the
    item being edited (id other than 0) is deleted, the form stays in
    editing mode with its fields, and a Submit of valid fields then only
    alerts 'Item not found'. *)
Theorem X13_delete_while_editing (s : state) (id : Z) :
  id ≠ 0 → editingItemId s = Some id →
  distinct_ids (catalogData s) →
  valid (itemNameInput s) → valid (itemDescriptionInput s) →
  let s1 := handle (Delete id true) s in
  editingItemId s1 = Some id
  ∧ itemNameInput s1 = itemNameInput s
  ∧ itemDescriptionInput s1 = itemDescriptionInput s
  ∧ handle Submit s1 = alert (lit "Item not found") s1.
Proof.
  intros Hid Hmode Hs Hn Hd s1.
  destruct (deleteItem_form true id s) as (Hm1 & Hn1 & Hd1).
  fold (handle (Delete id true) s) in Hm1, Hn1, Hd1. fold s1 in Hm1, Hn1, Hd1.
  rewrite Hmode in Hm1. split_and!; [done..|].
  simpl. unfold on_submit. rewrite Hm1, (truthy_nonzero _ Hid), Hn1, Hd1.
  rewrite (updateItem_valid _ _ _ _ Hn Hd).
  pose proof (deleted_id_absent id s Hs) as Habsent.
  apply findIndex_None in Habsent. fold (handle (Delete id true) s) in Habsent.
  fold s1 in Habsent. by rewrite Habsent.
Qed.

Lemma X13_witness :
  let editing := handle (Edit 2) gadget_added in
  editingItemId editing = Some 2 ∧
  distinct_ids (catalogData editing) ∧
  valid (itemNameInput editing) ∧ valid (itemDescriptionInput editing) ∧
  let s1 := handle (Delete 2 true) editing in
  editingItemId s1 = Some 2
  ∧ itemNameInput s1 = itemNameInput editing
  ∧ itemDescriptionInput s1 = itemDescriptionInput editing
  ∧ handle Submit s1 = alert (lit "Item not found") s1.
Proof.
  intros editing.
  assert (editingItemId editing = Some 2) as Hmode by (by vm_compute).
  assert (distinct_ids (catalogData editing)) as H.
  { apply distinct_ids_NoDup. vm_compute.
    apply NoDup_cons. split; [|apply NoDup_singleton].
    by intros ?%list_elem_of_singleton. }
  assert (valid (itemNameInput editing)) as Hn by (by vm_compute).
  assert (valid (itemDescriptionInput editing)) as Hd by (by vm_compute).
  split_and!; [done..|].
  by apply (X13_delete_while_editing editing 2).
Defined.

(** X14. With distinct ids, once an id has been deleted, a View, an Edit or
    another confirmed Delete of that id only alerts 'Item not found'. *)
Theorem X14_deleted_id_not_found (s : state) (id : Z) :
  distinct_ids (catalogData s) →
  let s1 := handle (Delete id true) s in
  handle (View id) s1 = alert (lit "Item not found") s1
  ∧ handle (Edit id) s1 = alert (lit "Item not found") s1
  ∧ handle (Delete id true) s1 = alert (lit "Item not found") s1.
Proof.
  intros Hs s1.
  pose proof (deleted_id_absent id s Hs) as Habsent.
  fold (handle (Delete id true) s) in Habsent. fold s1 in Habsent.
  pose proof Habsent as Hfind%find_None.
  pose proof Habsent as Hidx%findIndex_None.
  simpl. unfold viewItemDetails, editItem, deleteItem. simpl.
  by rewrite Hfind, Hidx.
Qed.

Lemma X14_witness :
  distinct_ids (catalogData gadget_added) ∧
  let s1 := handle (Delete 1 true) gadget_added in
  handle (View 1) s1 = alert (lit "Item not found") s1
  ∧ handle (Edit 1) s1 = alert (lit "Item not found") s1
  ∧ handle (Delete 1 true) s1 = alert (lit "Item not found") s1.
Proof.
  assert (distinct_ids (catalogData gadget_added)) as H.
  { apply distinct_ids_NoDup. vm_compute.
    apply NoDup_cons. split; [|apply NoDup_singleton].
    by intros ?%list_elem_of_singleton. }
  split; [done|]. exact (X14_deleted_id_not_found gadget_added 1 H).
Defined.

(** ** Lookups of other ids *)

(** An item appended to the store is never found in place of a stored one. *)
Lemma find_snoc_present id c x :
  id ∈ ids c → find id (c ++ [x]) = find id c.
Proof.
  induction c as [|y c IH]; [by intros ?%elem_of_nil|].
  unfold ids. rewrite fmap_cons. intros Hin. simpl.
  rewrite !find_cons. case_decide as Hy; [done|].
  apply IH. apply elem_of_cons in Hin as [->|Hin]; done.
Qed.

Lemma find_insert_other id c new :
  ∀ i, (∀ old, c !! i = Some old → item_id old ≠ id) →
       item_id new ≠ id →
       find id (<[i := new]> c) = find id c.
Proof.
  induction c as [|y c IH]; intros i Hold Hnew; [done|].
  destruct i as [|i]; simpl.
  - rewrite !find_cons.
    rewrite (decide_False (P := item_id new = id)) by done.
    rewrite (decide_False (P := item_id y = id)); [done|].
    by apply Hold.
  - rewrite !find_cons. case_decide; [done|].
    apply IH; [|done]. intros old Hi. by apply Hold.
Qed.

Lemma find_delete_other id c :
  ∀ i, (∀ old, c !! i = Some old → item_id old ≠ id) →
       find id (delete i c) = find id c.
Proof.
  induction c as [|y c IH]; intros i Hold; [done|].
  destruct i as [|i]; simpl.
  - rewrite find_cons. rewrite decide_False; [done|]. by apply Hold.
  - rewrite !find_cons. case_decide; [done|].
    apply IH. intros old Hi. by apply Hold.
Qed.

(** X15. Add, Update and Delete do not disturb the lookup of other ids:
    Update and Delete of [id] leave the lookup of every other id as it was,
    and Add leaves the lookup of every stored id as it was. *)
Theorem X15_other_lookups_kept
    (s : state) (id id' : Z) (name description : jsstring) (answer : bool) :
  (id' ≠ id →
     find id' (catalogData (updateItem id name description s))
     = find id' (catalogData s)
     ∧ find id' (catalogData (deleteItem answer id s))
       = find id' (catalogData s))
  ∧ (id' ∈ ids (catalogData s) →
     find id' (catalogData (addItem name description s))
     = find id' (catalogData s)).
Proof.
  split.
  - intros Hne. split.
    + rewrite catalogData_updateItem. case_decide; [|done].
      destruct (findIndex id (catalogData s)) as [i|] eqn:Hi; [|done].
      apply findIndex_Some in Hi as (it & Hi & Hid & _).
      apply find_insert_other; [|simpl; congruence].
      intros old Hold. congruence.
    + rewrite catalogData_deleteItem.
      destruct (findIndex id (catalogData s)) as [i|] eqn:Hi; [|done].
      destruct answer; [|done].
      apply findIndex_Some in Hi as (it & Hi & Hid & _).
      apply find_delete_other. intros old Hold. congruence.
  - intros Hin. rewrite catalogData_addItem. case_decide; [|done].
    by apply find_snoc_present.
Qed.

Lemma X15_witness :
  1 ∈ ids (catalogData gadget_added) ∧
  find 1 (catalogData (updateItem 2 (lit "G") (lit "g") gadget_added))
  = find 1 (catalogData gadget_added)
  ∧ find 1 (catalogData (deleteItem true 2 gadget_added))
    = find 1 (catalogData gadget_added)
  ∧ find 1 (catalogData (addItem (lit "G") (lit "g") gadget_added))
    = find 1 (catalogData gadget_added).
Proof.
  assert (1 ∈ ids (catalogData gadget_added)) as Hin
    by (vm_compute; apply list_elem_of_here).
  assert (1 ≠ 2) as Hne by done.
  pose proof (X15_other_lookups_kept gadget_added 2 1 (lit "G") (lit "g") true)
    as [Hframe Hadd].
  destruct (Hframe Hne) as [Hupd Hdel].
  split_and!; [done | exact Hupd | exact Hdel | exact (Hadd Hin)].
Defined.

(** ** The detail panel *)

(** X16. Update never touches the detail panel: its content and its
    visibility are as before, so an open panel keeps showing the item as it
    was when viewed. A View of the id after a successful Update shows the
    new values. *)
Theorem X16_update_and_details
    (s : state) (id : Z) (name description : jsstring) :
  itemDetails (updateItem id name description s) = itemDetails s
  ∧ detailsSection (updateItem id name description s) = detailsSection s
  ∧ (id ∈ ids (catalogData s) → valid name → valid description →
     itemDetails (viewItemDetails id (updateItem id name description s))
     = Some (Item id (trim name) (trim description))
     ∧ detailsSection (viewItemDetails id (updateItem id name description s))
       = lit "block").
Proof.
  split_and!.
  - destruct (updateItem_cases id name description s)
      as [(_ & _ & i & _ & ->)|[(_ & _ & _ & ->)|[(_ & ->)|(_ & _ & ->)]]];
      try done.
    simpl. by rewrite itemDetails_renderList.
  - destruct (updateItem_cases id name description s)
      as [(_ & _ & i & _ & ->)|[(_ & _ & _ & ->)|[(_ & ->)|(_ & _ & ->)]]];
      try done.
    simpl. by rewrite detailsSection_renderList.
  - intros Hin Hn Hd.
    destruct (findIndex_present _ _ Hin) as [i Hi].
    assert (find id (catalogData (updateItem id name description s))
            = Some (Item id (trim name) (trim description))) as Hfind.
    { rewrite catalogData_updateItem, decide_True, Hi by done.
      by apply find_replace. }
    unfold viewItemDetails. by rewrite Hfind.
Qed.

Lemma X16_witness :
  let viewing := viewItemDetails 2 gadget_added in
  2 ∈ ids (catalogData viewing) ∧ valid (lit "Gadget 2") ∧ valid (lit "New") ∧
  itemDetails (updateItem 2 (lit "Gadget 2") (lit "New") viewing)
  = Some (Item 2 (lit "Gadget") (lit "Another"))
  ∧ itemDetails (viewItemDetails 2
      (updateItem 2 (lit "Gadget 2") (lit "New") viewing))
    = Some (Item 2 (trim (lit "Gadget 2")) (trim (lit "New"))).
Proof.
  intros viewing.
  assert (2 ∈ ids (catalogData viewing)) as Hin.
  { vm_compute. apply list_elem_of_further, list_elem_of_here. }
  assert (valid (lit "Gadget 2")) as Hn by (by vm_compute).
  assert (valid (lit "New")) as Hd by (by vm_compute).
  pose proof (X16_update_and_details viewing 2 (lit "Gadget 2") (lit "New"))
    as (Hkept & _ & Hview).
  split_and!; [done..| |].
  - rewrite Hkept. by vm_compute.
  - exact (proj1 (Hview Hin Hn Hd)).
Defined.

(** ** Loading *)

(** X17. When the load fails the catalog is still empty and the page shows
    the load error; a rejected Add leaves that message, and the first valid
    Add stores its item under id 1 and replaces the message by the item's
    card. A loaded object without [items] gives the empty catalog and the
    no-items message. *)
Theorem X17_failed_load_then_add
    (page : state) (name description : jsstring) :
  let s0 := loadData FetchFailed (script_loaded page) in
  catalogData s0 = [] ∧ itemsList s0 = LoadErrorMessage
  ∧ alerts s0 = alerts page
  ∧ (valid name → valid description →
     catalogData (addItem name description s0)
     = [Item 1 (trim name) (trim description)]
     ∧ itemsList (addItem name description s0)
       = Cards [Item 1 (trim name) (trim description)])
  ∧ (blank name ∨ blank description →
     catalogData (addItem name description s0) = []
     ∧ itemsList (addItem name description s0) = LoadErrorMessage)
  ∧ catalogData (loadData (FetchedData None) (script_loaded page)) = []
  ∧ itemsList (loadData (FetchedData None) (script_loaded page))
    = NoItemsMessage.
Proof.
  intros s0. split_and!; try done.
  - intros Hn Hd. by rewrite (addItem_valid _ _ _ Hn Hd).
  - intros Hblank.
    destruct (addItem_cases name description s0)
      as [(Hn & Hd & _)|[(_ & ->)|(_ & _ & ->)]]; [|done..].
    apply valid_not_blank in Hn, Hd. by destruct Hblank.
Qed.

Lemma X17_witness :
  let s0 := loadData FetchFailed (script_loaded blank_page) in
  valid (lit "Widget") ∧ valid (lit "A thing") ∧ blank (lit " ") ∧
  catalogData (addItem (lit "Widget") (lit "A thing") s0)
  = [Item 1 (trim (lit "Widget")) (trim (lit "A thing"))]
  ∧ itemsList (addItem (lit "Widget") (lit "A thing") s0)
    = Cards [Item 1 (trim (lit "Widget")) (trim (lit "A thing"))]
  ∧ itemsList (addItem (lit " ") (lit "A thing") s0) = LoadErrorMessage.
Proof.
  intros s0.
  assert (valid (lit "Widget")) as Hn by (by vm_compute).
  assert (valid (lit "A thing")) as Hd by (by vm_compute).
  assert (blank (lit " ")) as Hb by (vm_compute; repeat constructor).
  pose proof (X17_failed_load_then_add blank_page (lit "Widget") (lit "A thing"))
    as (_ & _ & _ & Hadd & _).
  pose proof (X17_failed_load_then_add blank_page (lit " ") (lit "A thing"))
    as (_ & _ & _ & _ & Hrej & _).
  split_and!; [done..| | |].
  - exact (proj1 (Hadd Hn Hd)).
  - exact (proj2 (Hadd Hn Hd)).
  - exact (proj2 (Hrej (or_introl Hb))).
Defined.
